(** * Mousey: the reminders plugin

    A shallow embedding of [packages/bot/src/plugins/reminders/plugin.py]:
    the [remind] and [remind cancel] commands and the background task
    [_fulfill_reminders] that sleeps until the earliest reminder is due and
    then delivers, postpones or drops it.

    Conventions.  A [datetime] is an integer number of microseconds since the
    epoch and a [timedelta] a number of microseconds; [isoformat] followed by
    [fromisoformat] is the identity on such values, so the store keeps
    [expires_at] as the integer itself.  Coroutines are functions in a small
    state-and-exception monad over the plugin state; the loop task is cut at
    its two suspension points that matter (the fetch at the loop head and the
    [sleep_until]) and resumed by the event loop one segment at a time.

    Two neighbours of the plugin are embedded as well: the greedy
    parameter of [bot/command.py], through which [remind cancel] gets its
    list of ids (module [Command]), and the prune command of
    [bot/plugins/admin/plugin.py] (module [Admin]).  What they call in
    discord.py and in other plugins is a parameter of the model: the string
    view and the converter for the former, the clock, the order on roles,
    the tracking plugin, the reactions and Discord's answer to a kick for
    the latter. *)

From stdpp Require Import gmap strings list fin_maps sorting pretty.
From Stdlib Require Import ZArith Lia.

Open Scope Z_scope.

(** ** Data *)

Abbreviation datetime := Z (only parsing).
Abbreviation timedelta := Z (only parsing).

(** [datetime.timedelta(minutes=n)] *)
Definition minutes (n : Z) : timedelta := n * 60 * 1000000.

(** [discord.utils.snowflake_time]: the creation time encoded in an id,
    [(id >> 22) + 1420070400000] milliseconds. *)
Definition snowflake_time (snowflake : Z) : datetime :=
  (Z.shiftr snowflake 22 + 1420070400000) * 1000.

(** A reminder as the API holds it; the primary key [id] is kept apart, so a
    reminder dict [r] of the source is a pair: [r.1] is [r['id']] and [r.2]
    carries the other keys. *)
Record Row := {
  user_id : Z;
  guild_id : Z;
  channel_id : Z;
  message_id : Z;
  expires_at : datetime;
  message : string;
}.

Abbreviation Reminder := (Z * Row)%type (only parsing).
Abbreviation Store := (gmap Z Row) (only parsing).

Definition set_expires_at (t : datetime) (r : Row) : Row :=
  {| user_id := user_id r; guild_id := guild_id r; channel_id := channel_id r;
     message_id := message_id r; expires_at := t; message := message r |}.

(** Exceptions the plugin sees.  [NotFound] is the API client's 404;
    [ApiError] stands for every other failure of an API request;
    [IndexError] is what [resp[0]] raises on an empty list;
    [HTTPException] is discord.py's, with its [status] and [code]. *)
Inductive Exception :=
  | NotFound
  | ApiError
  | IndexError
  | HTTPException (status code : Z).

Inductive Result (A : Type) :=
  | Ok (a : A)
  | Raise (e : Exception).
Arguments Ok {A} a.
Arguments Raise {A} e.

(** ** The reminder store behind [mousey.api] *)

(** Ordering key of the fetch: the due time only. *)
Definition due_le (a b : Reminder) : Prop := expires_at a.2 <= expires_at b.2.

#[global] Instance due_le_dec (a b : Reminder) : Decision (due_le a b) :=
  Z_le_dec _ _.

Section Api.

(** How the store maps a guild to the shard that serves it. *)
Variable shard_of : Z -> Z.

Definition in_shard (shard : Z) (r : Reminder) : Prop :=
  shard_of (guild_id r.2) = shard.

#[global] Instance in_shard_dec shard r : Decision (in_shard shard r) :=
  Z.eq_dec _ _.

(** Modelled from the spec: the API server is not part of the plugin.
    [create(reminder) -> id], the id being new to the store. *)
Definition create_reminder (data : Row) (db : Store) : Result Z * Store :=
  let idx := fresh (dom db) in
  (Ok idx, <[idx := data]> db).

(** Modelled from the spec: the reminders of one shard, earliest due first;
    not found when there is none. *)
Definition get_reminders (shard : Z) (db : Store)
  : Result (list Reminder) * Store :=
  match merge_sort due_le (filter (in_shard shard) (map_to_list db)) with
  | [] => (Raise NotFound, db)
  | resp => (Ok resp, db)
  end.

(** Modelled from the spec: [get(id) -> Reminder | NotFound]. *)
Definition get_reminder (idx : Z) (db : Store) : Result Reminder * Store :=
  match db !! idx with
  | Some row => (Ok (idx, row), db)
  | None => (Raise NotFound, db)
  end.

(** Modelled from the spec: [update_due_at(id, new_due_at) -> NotFound | ok]. *)
Definition update_reminder (idx : Z) (expires : datetime) (db : Store)
  : Result unit * Store :=
  match db !! idx with
  | Some row => (Ok tt, <[idx := set_expires_at expires row]> db)
  | None => (Raise NotFound, db)
  end.

(** Modelled from the spec: [delete(id) -> NotFound | ok], without side
    effects when the id is absent. *)
Definition delete_reminder (idx : Z) (db : Store) : Result unit * Store :=
  match db !! idx with
  | Some _ => (Ok tt, delete idx db)
  | None => (Raise NotFound, db)
  end.

End Api.

(** ** Discord objects, as far as the plugin looks at them *)

Record Permissions := {
  send_messages : bool;
  mention_everyone : bool;
}.

Record Channel := {
  permissions_for : Z -> Permissions;   (* by member id *)
}.

Record Guild := {
  unavailable : bool;
  me : Z;                               (* the bot's own member id *)
  get_channel : Z -> option Channel;
  get_member : Z -> option Z;
}.

Record AllowedMentions := {
  everyone : bool;
  users : bool;
  replied_user : bool;
}.

(** The invoking context of a command. *)
Record Context := {
  author : Z;
  guild : Z;
  channel : Z;
  ctx_message : Z;
}.

(** What [TimeConverter] hands to [remind]. *)
Inductive Time :=
  | Timedelta (d : timedelta)
  | Datetime (t : datetime).

(** ** The loop task and the plugin state *)

Inductive Outcome :=
  | Returned
  | Cancelled
  | Raised (e : Exception).

(** Where the coroutine [_fulfill_reminders] stands: about to fetch at the
    head of its [while], suspended in [sleep_until] with its local
    [reminder], suspended at either place with a cancellation requested
    that the event loop has not delivered yet, or finished.  [Task.done()]
    is true of the last only. *)
Inductive Task :=
  | Fetching
  | Sleeping (reminder : Reminder)
  | Cancelling
  | Done (o : Outcome).

(** Effects visible outside the plugin, in the order they happen. *)
Inductive Event :=
  | Reply (channel message : Z) (content : string) (allowed_mentions : AllowedMentions)
  | Send (channel : Z) (content : string) (allowed_mentions : AllowedMentions)
  | CtxSend (content : string)
  | TaskCancel (old : Task)
  | CreateTask.

Record State := {
  api : gmap Z Row;              (* the store reached through mousey.api *)
  _next : option datetime;       (* self._next *)
  _task : Task;                  (* self._task *)
  utcnow : datetime;             (* the clock *)
  log : list (datetime * Event); (* effects so far, each with its time *)
}.

Definition set_api (db : gmap Z Row) (s : State) : State :=
  {| api := db; _next := _next s; _task := _task s; utcnow := utcnow s; log := log s |}.
Definition set_next (n : option datetime) (s : State) : State :=
  {| api := api s; _next := n; _task := _task s; utcnow := utcnow s; log := log s |}.
Definition set_task (t : Task) (s : State) : State :=
  {| api := api s; _next := _next s; _task := t; utcnow := utcnow s; log := log s |}.
Definition set_utcnow (t : datetime) (s : State) : State :=
  {| api := api s; _next := _next s; _task := _task s; utcnow := t; log := log s |}.
Definition add_log (e : Event) (s : State) : State :=
  {| api := api s; _next := _next s; _task := _task s; utcnow := utcnow s;
     log := log s ++ [(utcnow s, e)] |}.

(** Requests to the API, so that a world can say which of them fail. *)
Inductive Request :=
  | CreateReminder (data : Row)
  | GetReminders (shard : Z)
  | GetReminder (idx : Z)
  | UpdateReminder (idx : Z) (expires : datetime)
  | DeleteReminder (idx : Z).

(** What the environment decides while one piece of code runs. *)
Record World := {
  elapsed : N;                          (* time gone by before the code runs *)
  is_closed : bool;                     (* mousey.is_closed() *)
  get_guild : Z -> option Guild;        (* mousey.get_guild *)
  api_fault : Request -> bool;          (* requests failing other than by 404 *)
  reply_result : option (Z * Z);        (* status and code if message.reply fails *)
  send_result : option (Z * Z);         (* status and code if channel.send fails *)
}.

(** ** The coroutine monad: state passing with exceptions *)

Definition M (A : Type) : Type := State -> Result A * State.

Definition ret {A} (a : A) : M A := fun s => (Ok a, s).

Definition raise {A} (e : Exception) : M A := fun s => (Raise e, s).

Definition bind {A B} (m : M A) (k : A -> M B) : M B :=
  fun s =>
    match m s with
    | (Ok a, s') => k a s'
    | (Raise e, s') => (Raise e, s')
    end.

(** [try: m  except <catches>: handler] *)
Definition try_except {A} (m : M A) (catches : Exception -> bool) (handler : M A) : M A :=
  fun s =>
    match m s with
    | (Ok a, s') => (Ok a, s')
    | (Raise e, s') => if catches e then handler s' else (Raise e, s')
    end.

Notation "'let*' x ':=' m 'in' k" := (bind m (fun x => k))
  (at level 10, x name, m at level 100, k at level 200, only parsing).
Notation "m '>>' k" := (bind m (fun _ => k))
  (at level 100, k at level 200, right associativity, only parsing).

Definition modify (f : State -> State) : M unit := fun s => (Ok tt, f s).
Definition gets {A} (f : State -> A) : M A := fun s => (Ok (f s), s).

Definition is_NotFound (e : Exception) : bool :=
  match e with NotFound => true | _ => false end.
Definition is_HTTPException (e : Exception) : bool :=
  match e with HTTPException _ _ => true | _ => false end.

(** An API request: it fails when the world says so, and otherwise the store
    answers. *)
Definition request {A} (w : World) (rq : Request)
    (serve : gmap Z Row -> Result A * gmap Z Row) : M A :=
  fun s =>
    if api_fault w rq then (Raise ApiError, s)
    else let '(r, db) := serve (api s) in (r, set_api db s).

(** Time passing before a piece of code runs. *)
Definition tick (w : World) : M unit :=
  modify (fun s => set_utcnow (utcnow s + Z.of_N (elapsed w)) s).

(** [discord.utils.sleep_until(when)]: sleeps [max(when - now, 0)], and a
    sleeping task is resumed after at least the time it asked for. *)
Definition sleep_until (w : World) (when : datetime) : M unit :=
  modify (fun s => set_utcnow (Z.max (utcnow s) when + Z.of_N (elapsed w)) s).

(** A message sent to Discord: the attempt is an effect whether or not the
    request then fails. *)
Definition deliver (e : Event) (result : option (Z * Z)) : M unit :=
  modify (add_log e) >>
  match result with
  | None => ret tt
  | Some (status, code) => raise (HTTPException status code)
  end.

(** One wake-up of the loop task, as an observer records it. *)
Record Firing := {
  fired : Reminder;
  woke_at : datetime;
  effects : list (datetime * Event);
}.

Definition due (f : Firing) : datetime := expires_at (fired f).2.

(** ** [bot/command.py]: the [Command] subclass *)

Module Command.

(** What the method can meet: a [commands.CommandError] of any kind
    ([ArgumentParsingError] and [BadArgument] among them), its subclass
    [MissingRequiredArgument], or an exception of another family. *)
Inductive Error :=
  | CommandError (what : string)
  | MissingRequiredArgument (param : string)
  | OtherError (what : string).

(** [except (commands.ArgumentParsingError, commands.CommandError)] *)
Definition caught (e : Error) : bool :=
  match e with
  | OtherError _ => false
  | _ => true
  end.

(** discord.py's [StringView]. *)
Record StringView := {
  index : nat;
  previous : nat;
  end_ : nat;
  buffer : string;
}.

Definition eof (view : StringView) : bool := bool_decide (end_ view ≤ index view)%nat.

Definition set_index (i : nat) (view : StringView) : StringView :=
  {| index := i; previous := previous view; end_ := end_ view; buffer := buffer view |}.

(** What the method returns: the list it built, or [param.default]. *)
Inductive Transformed (V : Type) :=
  | Values (result : list V)
  | ParamDefault.
Arguments Values {V} result.
Arguments ParamDefault {V}.

(** How the [while] loop ends, if it does: by its condition or its
    [break], with [result], [error] and the view; or by an exception that
    leaves the method. *)
Inductive Loop (V : Type) :=
  | Finished (result : list V) (error : option Error) (view : StringView)
  | Left (e : Error) (view : StringView).
Arguments Finished {V} result error view.
Arguments Left {V} e view.

(** The values a converter yields, and the methods of discord.py the loop
    calls: [view.skip_ws()], [view.get_quoted_word()], which answers [None]
    at the end of the input and may raise, [self.do_conversion] for the
    parameter's converter, and the [_transform_greedy_pos] of the parent
    class. *)
Record Framework (V : Type) := {
  skip_ws : StringView -> StringView;
  get_quoted_word : StringView -> (Error + option string) * StringView;
  do_conversion : option string -> Error + V;
  super_transform_greedy_pos : bool -> StringView -> (Error + Transformed V) * StringView;
}.
Arguments skip_ws {V} _ _.
Arguments get_quoted_word {V} _ _.
Arguments do_conversion {V} _ _.
Arguments super_transform_greedy_pos {V} _ _ _.

(** A view whose index moves forward with every word, as that of
    discord.py does: [skip_ws] and [get_quoted_word] between them consume
    at least one character of a view that is not at its end, and leave
    [end] alone. *)
Definition advances {V} (fw : Framework V) : Prop :=
  ∀ view, eof view = false →
    let view' := (get_quoted_word fw (skip_ws fw view)).2 in
    end_ view' = end_ view ∧ (index view < index view')%nat.

(** The [while not view.eof] loop; [fuel] bounds its turns. *)
Fixpoint greedy_loop {V} (fw : Framework V) (fuel : nat) (result : list V)
    (view : StringView) : option (Loop V) :=
  match fuel with
  | O => None
  | S fuel =>
      if eof view then Some (Finished result None view)
      else
        (* For use with a manual undo *)
        let previous := index view in
        let view := skip_ws fw view in
        match get_quoted_word fw view with
        | (inl e, view) => Some (Left e view)
        | (inr argument, view) =>
            match do_conversion fw argument with
            | inr value => greedy_loop fw fuel (result ++ [value]) view
            | inl e =>
                if caught e
                then Some (Finished result (Some e) (set_index previous view))
                else Some (Left e view)
            end
        end
  end.

(** [Command._transform_greedy_pos]; [param] is the parameter's name. *)
Definition _transform_greedy_pos {V} (fw : Framework V) (_default_greedy : bool)
    (fuel : nat) (param : string) (required : bool) (view : StringView)
    : option ((Error + Transformed V) * StringView) :=
  if _default_greedy then Some (super_transform_greedy_pos fw required view)
  else
    match greedy_loop fw fuel [] view with
    | None => None
    | Some (Left e view) => Some (inl e, view)
    | Some (Finished result error view) =>
        match result with
        | [] =>
            if negb required then Some (inr ParamDefault, view)
            else
              match error with
              | Some e => Some (inl e, view)
              | None => Some (inl (MissingRequiredArgument param), view)
              end
        | _ => Some (inr (Values result), view)
        end
    end.

End Command.

(** ** [bot/plugins/admin/plugin.py]: pruning *)

Module Admin.

Record Role := {
  role_id : Z;
  position : Z;
}.

Record Member := {
  member_id : Z;
  bot : bool;
  roles : list Role;
  top_role : Role;
  guild_permissions : Z;          (* member.guild_permissions.value *)
}.

(** A row of the tracking plugin: when the member was last seen in the
    server and last seen online, each of which may be unknown. *)
Record Status := {
  seen : option datetime;
  status : option datetime;
}.

Inductive PruneStrategy :=
  | PruneStrategy_status
  | PruneStrategy_seen.

(** A [raw_reaction_add] payload. *)
Record Payload := {
  payload_channel_id : Z;
  payload_user_id : Z;
  payload_message_id : Z;
  emoji_name : string;
}.

Record Context := {
  author_id : Z;
  author : string;                (* str(ctx.author) *)
  channel_id : Z;
  members : list Member;          (* ctx.guild.members *)
  me_top_role : Role;             (* ctx.me.top_role *)
  me_joined_at : datetime;        (* ctx.guild.me.joined_at *)
}.

(** What the command does to the outside, in order. *)
Inductive Effect :=
  | Send (content : string)
  | AddReaction (emoji : string)
  | Ignore (member : Member)                  (* events.ignore(guild, 'member_kick', ...) *)
  | Kick (member : Member) (reason : string)
  | Dispatch (member : Member) (reason : string).

(** The exceptions the module's own code can raise: [TypeError], comparing
    [None] with a datetime, and [OverflowError], from a [timedelta] or a
    [datetime] out of range. *)
Inductive Error :=
  | TypeError
  | OverflowError.

(** What the command gets from outside: the clock, discord.py's order on
    roles, the number of whole days of a [timedelta]
    ([int(delta.total_seconds() / 86400)]), the answer of the tracking
    plugin, the reactions that arrive before the timeout, and which kicks
    Discord refuses. *)
Record Env := {
  now : datetime;
  role_lt : Role -> Role -> bool;
  whole_days : timedelta -> Z;
  bulk_last_status : list Member -> list Status;
  reactions : list Payload;
  kick_fails : Member -> bool;
}.

(** Moderator permissions - ignore these users unconditionally:
    [administrator], [ban_members], [kick_members], [manage_messages]. *)
Definition PERMISSIONS : Z :=
  Z.lor (Z.lor (Z.shiftl 1 3) (Z.shiftl 1 2)) (Z.lor (Z.shiftl 1 1) (Z.shiftl 1 13)).

Definition has_any_role (role_ids : list Z) (member : Member) : bool :=
  existsb (fun x => bool_decide (role_id x ∈ role_ids)) (roles member).

Definition can_be_pruned (env : Env) (bot_role : Role) (member : Member) : bool :=
  negb (bot member)
  && role_lt env (top_role member) bot_role
  && bool_decide (Z.land (guild_permissions member) PERMISSIONS = 0).

Definition should_prune_seen (start : datetime) (st : Status) : bool :=
  match seen st with
  | None => true
  | Some t => bool_decide (t < start)
  end.

(** [seen(status) and status.status is None or status.status < start]:
    the comparison is reached whenever the conjunction is false, also
    with a [status] of [None]. *)
Definition should_prune_status (start : datetime) (st : Status) : Error + bool :=
  if should_prune_seen start st && bool_decide (status st = None) then inr true
  else
    match status st with
    | None => inl TypeError
    | Some t => inr (bool_decide (t < start))
    end.

(** [datetime.min] and [datetime.max]: 0001-01-01T00:00:00 and
    9999-12-31T23:59:59.999999. *)
Definition datetime_min : datetime := - 62135596800 * 1000000.
Definition datetime_max : datetime := 253402300800 * 1000000 - 1.

(** [now - datetime.timedelta(days=days)]: a [timedelta] holds no more
    than 999999999 days either way, and the difference has to be a
    [datetime]; Python raises [OverflowError] for both. *)
Definition minus_days (now : datetime) (days : Z) : Error + datetime :=
  if bool_decide (- 999999999 <= days <= 999999999) then
    let start := now - days * 86400 * 1000000 in
    if bool_decide (datetime_min <= start <= datetime_max) then inr start
    else inl OverflowError
  else inl OverflowError.

(** [sum(map(check, statuses))] *)
Fixpoint count (check : Status -> Error + bool) (statuses : list Status) : Error + Z :=
  match statuses with
  | [] => inr 0
  | st :: rest =>
      match check st with
      | inl e => inl e
      | inr b =>
          match count check rest with
          | inl e => inl e
          | inr n => inr ((if b then 1 else 0) + n)
          end
      end
  end.

(** [data.channel_id == ctx.channel.id and data.user_id == ctx.author.id
    and data.emoji.name in choices] *)
Definition reaction_check (ctx : Context) (data : Payload) : bool :=
  bool_decide (payload_channel_id data = channel_id ctx)
  && bool_decide (payload_user_id data = author_id ctx)
  && bool_decide (emoji_name data ∈ ["❌"; "✅"]).

(** The loop over [zip(members, statuses)]. *)
Fixpoint kick_loop (env : Env) (ctx : Context) (check : Status -> Error + bool)
    (pairs : list (Member * Status)) : (Error + unit) * list Effect :=
  match pairs with
  | [] => (inr tt, [])
  | (member, st) :: rest =>
      match check st with
      | inl e => (inl e, [])
      | inr false => kick_loop env ctx check rest
      | inr true =>
          let reason := "Prune initiated by " +:+ author ctx in
          let here :=
            Ignore member :: Kick member reason
            :: (if kick_fails env member then [] else [Dispatch member reason]) in
          let '(res, effects) := kick_loop env ctx check rest in
          (res, here ++ effects)
      end
  end.

(** The members the command looks at: all of them, or those with one of
    the given roles, less those that cannot be pruned. *)
Definition candidates (env : Env) (ctx : Context) (given : list Role) : list Member :=
  let members :=
    match given with
    | [] => members ctx
    | _ => filter (fun m => has_any_role (role_id <$> given) m = true) (members ctx)
    end in
  filter (fun m => can_be_pruned env (me_top_role ctx) m = true) members.

(** The [check] the strategy selects. *)
Definition strategy_check (strategy : PruneStrategy) (start : datetime)
    : Status -> Error + bool :=
  match strategy with
  | PruneStrategy_seen => fun st => inr (should_prune_seen start st)
  | PruneStrategy_status => should_prune_status start
  end.

Definition is_Kick (e : Effect) : bool :=
  match e with Kick _ _ => true | _ => false end.

(** [Admin._prune_command] *)
Definition _prune_command (env : Env) (ctx : Context) (strategy : PruneStrategy)
    (given : list Role) (days : Z) : (Error + unit) * list Effect :=
  let delta := now env - me_joined_at ctx in
  let spent := whole_days env delta in
  if bool_decide (days > spent) then
    (inr tt, [Send ("Unable to prune as I've only been on this server for `"
                    +:+ pretty spent +:+ "` days, not `" +:+ pretty days +:+ "`.")])
  else
    let members := candidates env ctx given in
    let statuses := bulk_last_status env members in
    match minus_days (now env) days with
    | inl e => (inl e, [])
    | inr start =>
        let check := strategy_check strategy start in
        match count check statuses with
        | inl e => (inl e, [])
        | inr n =>
            let asked :=
              [Send ("Pruning members not seen in the past `" +:+ pretty days
                     +:+ "` days will remove `" +:+ pretty n +:+ "` members, continue?");
               AddReaction "✅"; AddReaction "❌"] in
            match List.find (reaction_check ctx) (reactions env) with
            | None => (inr tt, asked ++ [Send "Cancelled prune due to inactivity."])
            | Some payload =>
                if negb (bool_decide (emoji_name payload = "✅")) then (inr tt, asked)
                else
                  let '(res, effects) := kick_loop env ctx check (zip members statuses) in
                  (res, asked ++ effects)
            end
        end
    end.

End Admin.

(** ** A small world for the examples *)

Definition demo_shard_of (g : Z) : Z := g `mod` 2.
Definition demo_PURRL : string := "<:purrl:>".
Definition demo_human_delta (d : timedelta) : string :=
  pretty (d `div` 1000000) +:+ " seconds".
Definition demo_strftime (t : datetime) : string := pretty t.
Definition demo_Plural (n : Z) (word : string) : string :=
  pretty n +:+ " " +:+ word +:+ (if bool_decide (n = 1) then "" else "s").

Definition demo_row (user g expires : Z) (text : string) : Row :=
  {| user_id := user; guild_id := g; channel_id := 7; message_id := 4194304;
     expires_at := expires; message := text |}.

(** Reminders 1 and 2 are in guild 10, which shard 0 serves; reminder 3 is
    in guild 11, which it does not. *)
Definition demo_db : gmap Z Row :=
  <[1 := demo_row 100 10 5000 "tea"]>
    (<[2 := demo_row 200 10 3000 "cake"]>
       (<[3 := demo_row 100 11 1000 "elsewhere"]> ∅)).

Definition demo_channel (may_send : bool) : Channel :=
  {| permissions_for := fun _ =>
       {| send_messages := may_send; mention_everyone := false |} |}.

Definition demo_guild (down may_send : bool) : Guild :=
  {| unavailable := down; me := 1;
     get_channel := fun c => if bool_decide (c = 7) then Some (demo_channel may_send) else None;
     get_member := fun u => Some u |}.

Definition demo_world (lag : N) (g : option Guild) (reply send : option (Z * Z))
    (fault : bool) : World :=
  {| elapsed := lag; is_closed := false; get_guild := fun _ => g;
     api_fault := fun _ => fault; reply_result := reply; send_result := send |}.

Definition demo_state (db : gmap Z Row) (next : option datetime) (task : Task) : State :=
  {| api := db; _next := next; _task := task; utcnow := 0; log := [] |}.

Definition demo_ctx (user : Z) : Context :=
  {| author := user; guild := 10; channel := 7; ctx_message := 8388608 |}.

Definition demo_cake : Reminder := (2, demo_row 200 10 3000 "cake").

(** The task asleep on reminder 2, the earliest of shard 0. *)
Definition demo_asleep : State := demo_state demo_db (Some 3000) (Sleeping demo_cake).

(** A quiet world: the guild is up, Discord and the API answer. *)
Definition demo_quiet : World :=
  demo_world 0 (Some (demo_guild false true)) None None false.

(** A world in which every API request fails. *)
Definition demo_broken : World := demo_world 0 None None None true.

(** A world in which the guild is down and the task wakes up 400 s late. *)
Definition demo_late : World :=
  demo_world 400000000 (Some (demo_guild true true)) None None false.

(** A new task over a store that has nothing for shard 0. *)
Definition demo_idle : State :=
  demo_state (<[3 := demo_row 100 11 1000 "elsewhere"]> ∅) None Fetching.

(** A new task over the whole store. *)
Definition demo_fresh : State := demo_state demo_db None Fetching.

(** A world in which the API answers every request but the one for
    reminder 1. *)
Definition demo_flaky : World :=
  {| elapsed := 0; is_closed := false;
     get_guild := fun _ => Some (demo_guild false true);
     api_fault := fun rq =>
       match rq with
       | GetReminder idx => bool_decide (idx = 1)
       | _ => false
       end;
     reply_result := None; send_result := None |}.

(** The task asleep on reminder 2 after its owner's cancellation went
    unnoticed. *)
Definition demo_orphan : State :=
  demo_state (delete 2 demo_db) (Some 3000) (Sleeping demo_cake).

(** *** A view over bare words

    Words are separated by spaces and there are no quotes; the converter
    reads decimal numbers. *)

(** The first position from [i] on, [n] characters at most, at which
    [stop] holds. *)
Fixpoint demo_scan (stop : Ascii.ascii -> bool) (n i : nat) (buf : string) : nat :=
  match n with
  | O => i
  | S n =>
      match String.get i buf with
      | Some c => if stop c then i else demo_scan stop n (S i) buf
      | None => i
      end
  end.

Definition demo_is_space (c : Ascii.ascii) : bool := bool_decide (Ascii.nat_of_ascii c = 32%nat).

Definition demo_skip_ws (view : Command.StringView) : Command.StringView :=
  Command.set_index
    (demo_scan (fun c => negb (demo_is_space c))
       (Command.end_ view - Command.index view) (Command.index view)
       (Command.buffer view))
    view.

Definition demo_get_quoted_word (view : Command.StringView)
    : (Command.Error + option string) * Command.StringView :=
  if Command.eof view then (inr None, view)
  else
    let i := Command.index view in
    let j := demo_scan demo_is_space (Command.end_ view - S i) (S i)
               (Command.buffer view) in
    (inr (Some (String.substring i (j - i) (Command.buffer view))), Command.set_index j view).

Fixpoint demo_digits (s : string) (acc : Z) : option Z :=
  match s with
  | EmptyString => Some acc
  | String c s =>
      let d := Z.of_nat (Ascii.nat_of_ascii c) - 48 in
      if bool_decide (0 <= d <= 9) then demo_digits s (10 * acc + d) else None
  end.

Definition demo_int (argument : option string) : Command.Error + Z :=
  match argument with
  | Some (String c s) =>
      match demo_digits (String c s) 0 with
      | Some n => inr n
      | None => inl (Command.CommandError "not a number")
      end
  | _ => inl (Command.CommandError "not a number")
  end.

Definition demo_fw : Command.Framework Z :=
  {| Command.skip_ws := demo_skip_ws;
     Command.get_quoted_word := demo_get_quoted_word;
     Command.do_conversion := demo_int;
     Command.super_transform_greedy_pos := fun _ view => (inr (Command.Values []), view) |}.

Definition demo_view (text : string) : Command.StringView :=
  {| Command.index := 0; Command.previous := 0;
     Command.end_ := String.length text; Command.buffer := text |}.

(** *** A guild to prune *)

Definition demo_day : timedelta := 86400 * 1000000.

Definition demo_role (id pos : Z) : Admin.Role :=
  {| Admin.role_id := id; Admin.position := pos |}.

Definition demo_member (id : Z) (is_bot : bool) (top : Admin.Role) (perms : Z)
    : Admin.Member :=
  {| Admin.member_id := id; Admin.bot := is_bot; Admin.roles := [top];
     Admin.top_role := top; Admin.guild_permissions := perms |}.

(** Two ordinary members (1 and 4), an administrator (2) and a bot (3). *)
Definition demo_members : list Admin.Member :=
  [demo_member 1 false (demo_role 20 1) 0;
   demo_member 2 false (demo_role 21 2) 8;
   demo_member 3 true (demo_role 20 1) 0;
   demo_member 4 false (demo_role 20 1) 1024].

Definition demo_prune_ctx : Admin.Context :=
  {| Admin.author_id := 100; Admin.author := "admin#0001"; Admin.channel_id := 7;
     Admin.members := demo_members; Admin.me_top_role := demo_role 30 5;
     Admin.me_joined_at := 0 |}.

(** The bot joined a hundred days ago. *)
Definition demo_env (statuses : list Admin.Status) (reacts : list Admin.Payload)
    : Admin.Env :=
  {| Admin.now := 100 * demo_day;
     Admin.role_lt := fun a b => bool_decide (Admin.position a < Admin.position b);
     Admin.whole_days := fun d => d `div` demo_day;
     Admin.bulk_last_status := fun _ => statuses;
     Admin.reactions := reacts;
     Admin.kick_fails := fun _ => false |}.

(** Member 1 was last online eighty days ago, member 4 four days ago. *)
Definition demo_statuses : list Admin.Status :=
  [{| Admin.seen := Some (10 * demo_day); Admin.status := Some (20 * demo_day) |};
   {| Admin.seen := Some (95 * demo_day); Admin.status := Some (96 * demo_day) |}].

(** Member 1 was seen in the server five days ago and never online. *)
Definition demo_statuses_unknown : list Admin.Status :=
  [{| Admin.seen := Some (95 * demo_day); Admin.status := None |};
   {| Admin.seen := Some (95 * demo_day); Admin.status := Some (96 * demo_day) |}].

Definition demo_confirm : Admin.Payload :=
  {| Admin.payload_channel_id := 7; Admin.payload_user_id := 100;
     Admin.payload_message_id := 1; Admin.emoji_name := "✅" |}.

(** ** The plugin *)

(** Truthiness of an optional string: [None] and [''] are false. *)
Definition truthy (message : option string) : bool :=
  match message with
  | None | Some EmptyString => false
  | Some _ => true
  end.

Section Reminders.

Set Default Proof Using "Type".

(** Names the plugin imports from modules that are not modelled here. *)
Variable shard_of : Z -> Z.               (* the store's guild-to-shard map *)
Variable shard_id : Z.                    (* mousey.shard_id *)
Variable PURRL : string.
Variable human_delta : timedelta -> string.
Variable strftime : datetime -> string.   (* time.strftime('%Y-%m-%d %H:%M') *)
Variable Plural : Z -> string -> string.  (* f'{Plural(n):word}' *)

(** Forget the names a statement does not mention, for the tactics that
    sweep the whole context. *)
Ltac forget_unused :=
  try clear strftime; try clear Plural; try clear human_delta;
  try clear PURRL; try clear shard_id; try clear shard_of.

(** *** Calls through [mousey.api] *)

Definition api_create_reminder (w : World) (data : Row) : M Z :=
  request w (CreateReminder data) (create_reminder data).
Definition api_get_reminders (w : World) (shard : Z) : M (list Reminder) :=
  request w (GetReminders shard) (get_reminders shard_of shard).
Definition api_get_reminder (w : World) (idx : Z) : M Reminder :=
  request w (GetReminder idx) (get_reminder idx).
Definition api_update_reminder (w : World) (idx : Z) (expires : datetime) : M unit :=
  request w (UpdateReminder idx expires) (update_reminder idx expires).
Definition api_delete_reminder (w : World) (idx : Z) : M unit :=
  request w (DeleteReminder idx) (delete_reminder idx).

(** [self._task.cancel()] followed by
    [self._task = create_task(self._fulfill_reminders())]. *)
Definition restart_task : M unit :=
  let* old := gets _task in
  modify (add_log (TaskCancel old)) >>
  modify (add_log CreateTask) >>
  modify (set_task Fetching).

(** *** [Reminders.cog_unload]

    [if not self._task.done(): self._task.cancel()].  The call only asks
    for the cancellation: the task is done when the event loop has next
    resumed it, and until then a second unload asks again. *)
Definition cog_unload : M unit :=
  let* t := gets _task in
  match t with
  | Done _ => ret tt
  | _ => modify (add_log (TaskCancel t)) >> modify (set_task Cancelling)
  end.

(** *** [Reminders._delete_reminder] *)
Definition _delete_reminder (w : World) (idx : Z) : M unit :=
  modify (set_next None) >>
  try_except (api_delete_reminder w idx) is_NotFound (ret tt).

(** *** [Reminders._reschedule_reminder] *)
Definition _reschedule_reminder (w : World) (idx : Z) (expires_at : datetime) : M unit :=
  modify (set_next None) >>
  try_except (api_update_reminder w idx expires_at) is_NotFound (ret tt).

(** *** [Reminders.remind] *)
Definition remind (w : World) (ctx : Context) (time : Time)
    (message : option string) : M unit :=
  tick w >>
  let* now := gets utcnow in
  let '(expires, response) :=
    match time with
    | Timedelta d => (now + d, "in " +:+ human_delta d)
    | Datetime t => (t, "at " +:+ strftime t)
    end in
  let data :=
    {| user_id := author ctx;
       guild_id := guild ctx;
       channel_id := channel ctx;
       message_id := ctx_message ctx;
       expires_at := expires;
       message := if truthy message then default "" message else "something" |} in
  let* idx := api_create_reminder w data in
  let* next := gets _next in
  (match next with
   | None => restart_task
   | Some n => if bool_decide (n > expires) then restart_task else ret tt
   end) >>
  let about :=
    if truthy message then "about " +:+ default "" message +:+ " " else "" in
  modify (add_log (CtxSend
    ("I will remind you " +:+ about +:+ response +:+ ". #" +:+ pretty idx))).

(** *** [Reminders.remind_cancel] *)

(** The [for idx in reminders] loop, with its counter [deleted]. *)
Fixpoint remind_cancel_loop (w : World) (ctx : Context) (reminders : list Z)
    (deleted : Z) : M Z :=
  match reminders with
  | [] => ret deleted
  | idx :: rest =>
      let* found :=
        try_except (let* resp := api_get_reminder w idx in ret (Some resp))
                   is_NotFound (ret None) in
      match found with
      | None => remind_cancel_loop w ctx rest deleted
      | Some resp =>
          if bool_decide (user_id resp.2 ≠ author ctx)
          then remind_cancel_loop w ctx rest deleted
          else
            let* gone :=
              try_except (api_delete_reminder w idx >> ret true)
                         is_NotFound (ret false) in
            remind_cancel_loop w ctx rest (if gone : bool then deleted + 1 else deleted)
      end
  end.

Definition remind_cancel (w : World) (ctx : Context) (reminders : list Z) : M unit :=
  tick w >>
  let* deleted := remind_cancel_loop w ctx reminders 0 in
  let* msg :=
    if bool_decide (deleted ≠ 0) then
      let* next := gets _next in
      (match next with
       | Some _ => restart_task
       | None => ret tt
       end) >>
      ret ("Successfully deleted " +:+ Plural deleted "reminder" +:+ ".")
    else
      ret "Unable to delete reminder, it may already be deleted or not belong to you." in
  modify (add_log (CtxSend msg)).

(** *** [Reminders._fulfill_reminders] *)

(** From the head of the [while] to the [sleep_until]: the task returns
    when the bot is closed or the API has no reminder for the shard, and
    else goes to sleep on the first reminder of the answer. *)
Definition fetch (w : World) : M Task :=
  if is_closed w then ret (Done Returned)
  else
    let* found :=
      try_except (let* resp := api_get_reminders w shard_id in ret (Some resp))
                 is_NotFound (ret None) in
    match found with
    | None => ret (Done Returned)
    | Some [] => raise IndexError
    | Some (reminder :: _) =>
        let expires_at := expires_at reminder.2 in
        modify (set_next (Some expires_at)) >>
        ret (Sleeping reminder)
    end.

(** The text and mention policy of the notification. *)
Definition notification (g : Guild) (ch : Channel) (reminder : Reminder)
    (now : datetime) : string * AllowedMentions :=
  let message_id := message_id reminder.2 in
  let created_at := snowflake_time message_id in
  let user_id := user_id reminder.2 in
  let content := message reminder.2 in
  let created := human_delta (now - created_at) in
  let content :=
    "Hey <@!" +:+ pretty user_id +:+ "> " +:+ PURRL
    +:+ "! You asked to be reminded about " +:+ content +:+ " "
    +:+ created +:+ " ago." in
  let everyone :=
    match get_member g user_id with
    | None => false
    | Some member => mention_everyone (permissions_for ch member)
    end in
  (content, {| everyone := everyone; users := true; replied_user := true |}).

(** From the return of [sleep_until] to the next turn of the [while].  The
    [asyncio.shield] around the two store updates makes them run to their
    end whatever happens to the task, which the sequential model does
    anyway. *)
Definition fire (w : World) (reminder : Reminder) : M unit :=
  match get_guild w (guild_id reminder.2) with
  | None => _delete_reminder w reminder.1
  | Some g =>
      if unavailable g then
        (* Reschedule until the guild is hopefully available again *)
        let expires_at := expires_at reminder.2 + minutes 5 in
        _reschedule_reminder w reminder.1 expires_at
      else
        match get_channel g (channel_id reminder.2) with
        | None => _delete_reminder w reminder.1
        | Some ch =>
            if negb (send_messages (permissions_for ch (me g))) then
              _delete_reminder w reminder.1
            else
              let* now := gets utcnow in
              let '(content, mentions) := notification g ch reminder now in
              try_except
                (deliver (Reply (channel_id reminder.2) (message_id reminder.2)
                                content mentions) (reply_result w))
                is_HTTPException
                (* Message we're replying to doesn't exist anymore *)
                (try_except
                   (deliver (Send (channel_id reminder.2) content mentions)
                            (send_result w))
                   is_HTTPException (ret tt)) >>
              _delete_reminder w reminder.1
        end
  end.

(** One run of the coroutine from where it stands to its next suspension.
    The bot is taken to be ready, so that [wait_until_ready] returns at
    once and a new task stands at the head of the loop. *)
Definition _fulfill_reminders (w : World) (pc : Task) : M Task :=
  match pc with
  | Fetching => tick w >> fetch w
  | Sleeping reminder =>
      sleep_until w (expires_at reminder.2) >>
      fire w reminder >>
      ret Fetching
  | Cancelling => ret (Done Cancelled)
  | Done o => ret (Done o)
  end.

(** The event loop resumes the task; an exception that leaves the
    coroutine ends the task. *)
Definition resume (w : World) (s : State) : State :=
  match _fulfill_reminders w (_task s) s with
  | (Ok pc, s') => set_task pc s'
  | (Raise e, s') => set_task (Done (Raised e)) s'
  end.

(** What can happen to the plugin: the event loop resumes the task, a
    user invokes one of the two commands, or the plugin is unloaded.  An
    exception that leaves a command goes to the command framework; the
    state is the one the command left.  A command or an unload runs
    between two segments of the task, that is while the task is suspended
    at its fetch or in [sleep_until]; one that arrives at an [await]
    inside a wake-up is not among the histories. *)
Inductive Action :=
  | Resume (w : World)
  | Remind (w : World) (ctx : Context) (time : Time) (message : option string)
  | RemindCancel (w : World) (ctx : Context) (reminders : list Z)
  | Unload.

Definition step (a : Action) (s : State) : State :=
  match a with
  | Resume w => resume w s
  | Remind w ctx time message => (remind w ctx time message s).2
  | RemindCancel w ctx reminders => (remind_cancel w ctx reminders s).2
  | Unload => (cog_unload s).2
  end.

(** [Reminders.__init__] on a given store and clock. *)
Definition init (db : gmap Z Row) (now : datetime) : State :=
  {| api := db; _next := None; _task := Fetching; utcnow := now; log := [] |}.

(** The task resumed once per world of the list, nothing else running in
    between. *)
Definition run (ws : list World) (s : State) : State :=
  foldl (fun s w => resume w s) s ws.

(** Any history of the plugin. *)
Definition play (acts : list Action) (s : State) : State :=
  foldl (fun s a => step a s) s acts.

(** What such a run looks like from outside: for each time the task woke
    up, the reminder it had been sleeping on, the time at which it went on
    after [sleep_until], and the effects it had before it next suspended. *)
Fixpoint firings (ws : list World) (s : State) : list Firing :=
  match ws with
  | [] => []
  | w :: ws' =>
      let s' := resume w s in
      match _task s with
      | Sleeping reminder =>
          {| fired := reminder; woke_at := utcnow s';
             effects := drop (length (log s)) (log s') |} :: firings ws' s'
      | _ => firings ws' s'
      end
  end.

(** *** Vocabulary of the statements *)

Definition no_fault (w : World) : Prop := ∀ rq, api_fault w rq = false.

Definition finished (t : Task) : bool :=
  match t with Done _ => true | _ => false end.

(** [r] is in the store, belongs to the shard, and no reminder of the
    shard is due before it. *)
Definition earliest (r : Reminder) (db : gmap Z Row) : Prop :=
  db !! r.1 = Some r.2 ∧ in_shard shard_of shard_id r ∧
  ∀ k row, db !! k = Some row → in_shard shard_of shard_id (k, row) →
           expires_at r.2 <= expires_at row.

(** No reminder of the shard is in the store. *)
Definition shard_empty (db : gmap Z Row) : Prop :=
  ∀ k row, db !! k = Some row → ¬ in_shard shard_of shard_id (k, row).

(** What a firing can make of the store: nothing, the reminder deleted, or
    the reminder postponed. *)
Definition fire_store (r : Reminder) (db db' : gmap Z Row) : Prop :=
  db' = db ∨ db' = delete r.1 db
  ∨ db' = alter (set_expires_at (expires_at r.2 + minutes 5)) r.1 db.

(** Every reminder of the shard is due at [lb] or later, and a sleeping
    task sleeps on the earliest one. *)
Definition fetched_inv (lb : datetime) (s : State) : Prop :=
  (∀ k row, api s !! k = Some row → in_shard shard_of shard_id (k, row) →
            lb <= expires_at row)
  ∧ (∀ r, _task s = Sleeping r → earliest r (api s)).

(** The rows a cancellation by [ctx.author] over [ids] leaves alone. *)
Definition kept (ctx : Context) (ids : list Z) (r : Reminder) : Prop :=
  ¬ (r.1 ∈ ids ∧ user_id r.2 = author ctx).

(** The destination is gone for good: the guild is unknown to the bot, or
    it is there and available but the channel is unknown or closed to the
    bot. *)
Definition permanently_unavailable (w : World) (r : Reminder) : Prop :=
  match get_guild w (guild_id r.2) with
  | None => True
  | Some g =>
      unavailable g = false ∧
      match get_channel g (channel_id r.2) with
      | None => True
      | Some ch => send_messages (permissions_for ch (me g)) = false
      end
  end.

(** The claim that the task stays alive over a fetch that finds nothing. *)
Definition survives_empty_fetch (w : World) (s : State) : Prop :=
  _task s = Fetching → is_closed w = false → no_fault w →
  (get_reminders shard_of shard_id (api s)).1 = Raise NotFound →
  finished (_task (resume w s)) = false.

(** The claim that the task stays alive over a failing API request. *)
Definition survives_api_error (w : World) (s : State) : Prop :=
  _task s = Fetching → is_closed w = false →
  api_fault w (GetReminders shard_id) = true →
  finished (_task (resume w s)) = false.

(** The [expires] of [remind]. *)
Definition due_of (time : Time) (now : datetime) : datetime :=
  match time with
  | Timedelta d => now + d
  | Datetime t => t
  end.

(** The [data] of [remind]. *)
Definition data_of (ctx : Context) (message : option string) (expires : datetime) : Row :=
  {| user_id := author ctx;
     guild_id := guild ctx;
     channel_id := channel ctx;
     message_id := ctx_message ctx;
     expires_at := expires;
     message := if truthy message then default "" message else "something" |}.

(** The test of [remind] on [self._next]. *)
Definition reschedules (next : option datetime) (expires : datetime) : bool :=
  match next with
  | None => true
  | Some n => bool_decide (n > expires)
  end.

(** The state [restart_task] leaves. *)
Definition restarted (s : State) : State :=
  set_task Fetching (add_log CreateTask (add_log (TaskCancel (_task s)) s)).

(** A sleeping task sleeps until the time [_next] holds. *)
Definition sleeps_on_next (s : State) : Prop :=
  ∀ r, _task s = Sleeping r → _next s = Some (expires_at r.2).

(** A world in which the loop can do its work: the bot is open, the API
    answers, and no guild the bot knows is unavailable. *)
Definition serves (w : World) : Prop :=
  is_closed w = false ∧ no_fault w
  ∧ ∀ g guild, get_guild w g = Some guild → unavailable guild = false.

(** The reminders of the loop's shard. *)
Definition shard_rows (db : gmap Z Row) : gmap Z Row :=
  filter (in_shard shard_of shard_id) db.

(** The effects a resumption added to the log. *)
Definition new_effects (s s' : State) : list (datetime * Event) :=
  drop (length (log s)) (log s').

(** Some listed reminder exists and belongs to the author. *)
Definition cancellable (ctx : Context) (reminders : list Z) (db : gmap Z Row) : Prop :=
  ∃ k row, k ∈ reminders ∧ db !! k = Some row ∧ user_id row = author ctx.

(** The messages the task sends when it wakes up for [r] at time [t] in
    world [w]: none, the reply, or the reply and the standalone message. *)
Definition deliveries (w : World) (r : Reminder) (t : datetime) : list Event :=
  match get_guild w (guild_id r.2) with
  | None => []
  | Some g =>
      if unavailable g then []
      else
        match get_channel g (channel_id r.2) with
        | None => []
        | Some ch =>
            if send_messages (permissions_for ch (me g)) then
              let c := (notification g ch r t).1 in
              let m := (notification g ch r t).2 in
              Reply (channel_id r.2) (message_id r.2) c m
              :: match reply_result w with
                 | None => []
                 | Some _ => [Send (channel_id r.2) c m]
                 end
            else []
        end
  end.

(** A history in which no command runs: the event loop turns and the
    plugin is unloaded, nothing else. *)
Definition turn_or_unload (a : Action) : bool :=
  match a with Resume _ | Unload => true | _ => false end.

(** The event loop turns at least once in the history. *)
Definition turns (acts : list Action) : bool :=
  existsb (fun a => match a with Resume _ => true | _ => false end) acts.

(** The unloads of a history before the event loop first turns. *)
Fixpoint unloads_before_turn (acts : list Action) : nat :=
  match acts with
  | Unload :: acts => S (unloads_before_turn acts)
  | _ => O
  end.

(** *** The store *)

#[local] Instance due_le_trans : Transitive due_le.
Proof. intros a b c; unfold due_le; lia. Qed.

#[local] Instance due_le_total : Total due_le.
Proof. intros a b; unfold due_le; lia. Qed.

Lemma fetched_spec (db : gmap Z Row) :
  let l := merge_sort due_le (filter (in_shard shard_of shard_id) (map_to_list db)) in
  (∀ r, r ∈ l ↔ db !! r.1 = Some r.2 ∧ in_shard shard_of shard_id r)
  ∧ StronglySorted due_le l.
Proof.
  forget_unused.
  intros l; split.
  - intros [k row]. unfold l. rewrite merge_sort_Permutation.
    rewrite list_elem_of_filter, elem_of_map_to_list. simpl. tauto.
  - apply StronglySorted_merge_sort; apply _.
Qed.

Lemma get_reminders_cases (db : gmap Z Row) :
  (get_reminders shard_of shard_id db = (Raise NotFound, db) ∧ shard_empty db)
  ∨ (∃ r rest, get_reminders shard_of shard_id db = (Ok (r :: rest), db)
               ∧ earliest r db).
Proof.
  destruct (fetched_spec db) as [Hin Hsorted]. unfold get_reminders.
  destruct (merge_sort due_le _) as [|r rest] eqn:E.
  - left. split; [done|]. intros k row Hk Hs.
    assert (H : (k, row) ∈ @nil (Z * Row)) by (by apply Hin).
    by apply not_elem_of_nil in H.
  - right. exists r, rest. split; [done|].
    assert (Hr : r ∈ r :: rest) by left.
    apply Hin in Hr as [Hr1 Hr2]. repeat split; [done..|].
    intros k row Hk Hs.
    assert (H : (k, row) ∈ r :: rest) by (by apply Hin).
    apply StronglySorted_inv in Hsorted as [_ Hall].
    apply elem_of_cons in H as [<-|H]; [unfold due_le; simpl; lia|].
    rewrite Forall_forall in Hall. by apply (Hall (k, row)).
Qed.

Lemma set_api_same s : set_api (api s) s = s.
Proof. by destruct s. Qed.

(** *** The two store updates of the loop *)

Lemma delete_reminder_eq idx (db : gmap Z Row) :
  delete_reminder idx db =
    (match db !! idx with Some _ => Ok tt | None => Raise NotFound end,
     delete idx db).
Proof.
  unfold delete_reminder. destruct (db !! idx) eqn:E; [done|].
  by rewrite delete_id.
Qed.

Lemma update_reminder_eq idx t (db : gmap Z Row) :
  update_reminder idx t db =
    (match db !! idx with Some _ => Ok tt | None => Raise NotFound end,
     alter (set_expires_at t) idx db).
Proof.
  unfold update_reminder. destruct (db !! idx) eqn:E.
  - f_equal. apply map_eq; intros k. rewrite lookup_alter, lookup_insert.
    case_decide; subst; by rewrite ?E.
  - f_equal. apply map_eq; intros k. rewrite lookup_alter.
    case_decide; subst; by rewrite ?E.
Qed.

Lemma _delete_reminder_eq w idx s :
  _delete_reminder w idx s =
    if api_fault w (DeleteReminder idx)
    then (Raise ApiError, set_next None s)
    else (Ok tt, set_api (delete idx (api s)) (set_next None s)).
Proof.
  unfold _delete_reminder, api_delete_reminder, request, try_except, bind, modify, ret.
  destruct (api_fault w _); [done|].
  rewrite delete_reminder_eq. simpl. by destruct (api s !! idx).
Qed.

Lemma _reschedule_reminder_eq w idx t s :
  _reschedule_reminder w idx t s =
    if api_fault w (UpdateReminder idx t)
    then (Raise ApiError, set_next None s)
    else (Ok tt, set_api (alter (set_expires_at t) idx (api s)) (set_next None s)).
Proof.
  unfold _reschedule_reminder, api_update_reminder, request, try_except, bind, modify, ret.
  destruct (api_fault w _); [done|].
  rewrite update_reminder_eq. simpl. by destruct (api s !! idx).
Qed.

(** *** The fetch *)

Lemma fetch_eq w s :
  is_closed w = false → api_fault w (GetReminders shard_id) = false →
  fetch w s =
    match (get_reminders shard_of shard_id (api s)).1 with
    | Ok (reminder :: _) =>
        (Ok (Sleeping reminder), set_next (Some (expires_at reminder.2)) s)
    | Ok [] => (Raise IndexError, s)
    | Raise NotFound => (Ok (Done Returned), s)
    | Raise e => (Raise e, s)
    end.
Proof.
  intros Hc Hf.
  unfold fetch, api_get_reminders, request, try_except, bind, modify, ret, raise.
  rewrite Hc, Hf.
  destruct (get_reminders_cases (api s)) as [[-> _]|(r & rest & -> & _)];
    simpl; by rewrite set_api_same.
Qed.

Lemma fetch_fault w s :
  is_closed w = false → api_fault w (GetReminders shard_id) = true →
  fetch w s = (Raise ApiError, s).
Proof.
  intros Hc Hf.
  unfold fetch, api_get_reminders, request, try_except, bind.
  by rewrite Hc, Hf.
Qed.

(** Whatever the world, the fetch leaves store, log and clock alone, and
    a task it puts to sleep sleeps on the earliest reminder. *)
Lemma fetch_inv w s res s' :
  fetch w s = (res, s') →
  api s' = api s ∧ log s' = log s ∧ utcnow s' = utcnow s ∧
  match res with
  | Ok (Sleeping r) => earliest r (api s) ∧ _next s' = Some (expires_at r.2)
  | Ok Fetching | Ok Cancelling => False
  | Ok (Done o) => o = Returned ∧ _next s' = _next s
  | Raise e => _next s' = _next s
  end.
Proof.
  destruct (is_closed w) eqn:Hc.
  { unfold fetch. rewrite Hc. intros [= <- <-]. done. }
  destruct (api_fault w (GetReminders shard_id)) eqn:Hf.
  { rewrite fetch_fault by done. intros [= <- <-]. done. }
  rewrite fetch_eq by done.
  destruct (get_reminders_cases (api s)) as [[-> _]|(r & rest & -> & He)];
    simpl; intros [= <- <-]; done.
Qed.

(** *** The firing *)

Lemma fire_guild_gone w r s :
  get_guild w (guild_id r.2) = None →
  fire w r s = _delete_reminder w r.1 s.
Proof. intros H. unfold fire. by rewrite H. Qed.

Lemma fire_guild_unavailable w r g s :
  get_guild w (guild_id r.2) = Some g → unavailable g = true →
  fire w r s = _reschedule_reminder w r.1 (expires_at r.2 + minutes 5) s.
Proof. intros H1 H2. unfold fire. by rewrite H1, H2. Qed.

Lemma fire_channel_gone w r g s :
  get_guild w (guild_id r.2) = Some g → unavailable g = false →
  get_channel g (channel_id r.2) = None →
  fire w r s = _delete_reminder w r.1 s.
Proof. intros H1 H2 H3. unfold fire. by rewrite H1, H2, H3. Qed.

Lemma fire_forbidden w r g ch s :
  get_guild w (guild_id r.2) = Some g → unavailable g = false →
  get_channel g (channel_id r.2) = Some ch →
  send_messages (permissions_for ch (me g)) = false →
  fire w r s = _delete_reminder w r.1 s.
Proof. intros H1 H2 H3 H4. unfold fire. by rewrite H1, H2, H3, H4. Qed.

Lemma fire_deliver w r g ch s :
  get_guild w (guild_id r.2) = Some g → unavailable g = false →
  get_channel g (channel_id r.2) = Some ch →
  send_messages (permissions_for ch (me g)) = true →
  fire w r s =
    let content := (notification g ch r (utcnow s)).1 in
    let mentions := (notification g ch r (utcnow s)).2 in
    let s1 := add_log (Reply (channel_id r.2) (message_id r.2) content mentions) s in
    match reply_result w with
    | None => _delete_reminder w r.1 s1
    | Some _ =>
        _delete_reminder w r.1 (add_log (Send (channel_id r.2) content mentions) s1)
    end.
Proof.
  intros H1 H2 H3 H4. unfold fire. rewrite H1, H2, H3, H4. simpl.
  unfold bind at 1, gets at 1.
  destruct (notification g ch r (utcnow s)) as [content mentions]. simpl.
  unfold bind at 1, try_except at 1, deliver at 1, bind at 1, modify at 1.
  destruct (reply_result w) as [[st1 c1]|]; simpl; [|done].
  unfold try_except, deliver, bind, modify, raise, ret.
  by destruct (send_result w) as [[st2 c2]|].
Qed.

Lemma _delete_reminder_inv w r s res s' :
  _delete_reminder w r.1 s = (res, s') →
  utcnow s' = utcnow s ∧ log s' = log s ∧ fire_store r (api s) (api s').
Proof.
  rewrite _delete_reminder_eq. unfold fire_store.
  destruct (api_fault w _); intros [= <- <-]; simpl; auto.
Qed.

Lemma fire_inv w r s res s' :
  fire w r s = (res, s') →
  utcnow s' = utcnow s
  ∧ (∃ new, log s' = log s ++ new ∧ Forall (λ te, te.1 = utcnow s) new)
  ∧ fire_store r (api s) (api s').
Proof.
  assert (Hnil : ∀ s0 : State, log s0 = log s → ∃ new,
             log s0 = log s ++ new ∧ Forall (λ te : Z * Event, te.1 = utcnow s) new).
  { intros s0 ->. exists []. by rewrite app_nil_r. }
  destruct (get_guild w (guild_id r.2)) as [g|] eqn:Hg.
  2:{ rewrite fire_guild_gone by done. intros H.
      apply _delete_reminder_inv in H as (? & ? & ?). auto. }
  destruct (unavailable g) eqn:Hu.
  { rewrite (fire_guild_unavailable _ _ g) by done.
    rewrite _reschedule_reminder_eq. unfold fire_store.
    destruct (api_fault w _); intros [= <- <-]; simpl; auto 6. }
  destruct (get_channel g (channel_id r.2)) as [ch|] eqn:Hc.
  2:{ rewrite (fire_channel_gone _ _ g) by done. intros H.
      apply _delete_reminder_inv in H as (? & ? & ?). auto. }
  destruct (send_messages (permissions_for ch (me g))) eqn:Hp.
  2:{ rewrite (fire_forbidden _ _ g ch) by done. intros H.
      apply _delete_reminder_inv in H as (? & ? & ?). auto. }
  rewrite (fire_deliver _ _ g ch) by done. simpl.
  destruct (reply_result w); intros H;
    apply _delete_reminder_inv in H as (Ht & Hl & Hs); simpl in *;
    (split; [done|]); (split; [|done]); rewrite Hl.
  - rewrite <- app_assoc. eexists; split; [done|]. repeat constructor.
  - eexists; split; [done|]. repeat constructor.
Qed.

(** *** Resuming the task *)

Lemma resume_Fetching w s :
  _task s = Fetching →
  resume w s =
    let s0 := set_utcnow (utcnow s + Z.of_N (elapsed w)) s in
    match fetch w s0 with
    | (Ok pc, s') => set_task pc s'
    | (Raise e, s') => set_task (Done (Raised e)) s'
    end.
Proof. intros H. unfold resume. rewrite H. done. Qed.

Lemma resume_Sleeping w s r :
  _task s = Sleeping r →
  resume w s =
    let s0 := set_utcnow (Z.max (utcnow s) (expires_at r.2) + Z.of_N (elapsed w)) s in
    match fire w r s0 with
    | (Ok _, s') => set_task Fetching s'
    | (Raise e, s') => set_task (Done (Raised e)) s'
    end.
Proof.
  intros H. unfold resume. rewrite H. simpl.
  unfold bind at 1, sleep_until, modify. unfold bind, ret.
  by destruct (fire w r _) as [[[]|e] s'].
Qed.

Lemma resume_Done w s o : _task s = Done o → resume w s = s.
Proof. intros H. unfold resume. rewrite H. simpl. destruct s; simpl in *. by subst. Qed.

Lemma resume_Cancelling w s :
  _task s = Cancelling → resume w s = set_task (Done Cancelled) s.
Proof. intros H. unfold resume. by rewrite H. Qed.

(** *** Order of the firings *)

Lemma fetched_inv_Fetching w s lb :
  _task s = Fetching → fetched_inv lb s → fetched_inv lb (resume w s).
Proof.
  intros Ht [Hlb _]. rewrite resume_Fetching by done. simpl.
  destruct (fetch w _) as [res s'] eqn:E.
  apply fetch_inv in E as (Ha & _ & _ & Hres). simpl in Ha.
  destruct res as [pc|e]; split; simpl; rewrite ?Ha; try done.
  intros r ->. by destruct Hres.
Qed.

Lemma fetched_inv_Sleeping w s r lb :
  _task s = Sleeping r → fetched_inv lb s →
  lb <= expires_at r.2 ∧ fetched_inv (expires_at r.2) (resume w s).
Proof.
  intros Ht [Hlb Hs]. destruct (Hs r Ht) as (Hin & Hsh & Hmin).
  split. { apply (Hlb r.1); by destruct r. }
  rewrite (resume_Sleeping _ _ r) by done. simpl.
  destruct (fire w r _) as [res s'] eqn:E.
  apply fire_inv in E as (_ & _ & Hst). simpl in Hst.
  assert (Hnew : ∀ k row, api s' !! k = Some row →
            in_shard shard_of shard_id (k, row) → expires_at r.2 <= expires_at row).
  { intros k row Hk Hin'. destruct Hst as [Hst|[Hst|Hst]]; rewrite Hst in Hk.
    - by apply (Hmin k).
    - apply lookup_delete_Some in Hk as [_ Hk]. by apply (Hmin k).
    - rewrite lookup_alter in Hk. case_decide; [|by apply (Hmin k)].
      subst k. rewrite Hin in Hk. simplify_eq/=. unfold minutes. lia. }
  destruct res; split; simpl; done.
Qed.

Lemma fetched_inv_Cancelling w s lb :
  _task s = Cancelling → fetched_inv lb s → fetched_inv lb (resume w s).
Proof.
  intros Ht [Hlb _]. rewrite resume_Cancelling by done. by split.
Qed.

Lemma firings_app ws1 ws2 : ∀ s,
  firings (ws1 ++ ws2) s = firings ws1 s ++ firings ws2 (run ws1 s).
Proof.
  induction ws1 as [|w ws1 IH]; intros s; simpl; [done|].
  rewrite IH. by destruct (_task s).
Qed.

Lemma firings_sorted ws : ∀ s lb,
  fetched_inv lb s →
  Forall (λ f, lb <= due f) (firings ws s)
  ∧ StronglySorted Z.le (due <$> firings ws s).
Proof.
  induction ws as [|w ws IH]; intros s lb Hinv; simpl.
  { split; constructor. }
  destruct (_task s) as [|r| |o] eqn:Ht.
  - apply IH. by apply fetched_inv_Fetching.
  - destruct (fetched_inv_Sleeping w s r lb Ht Hinv) as [Hle Hinv'].
    destruct (IH _ _ Hinv') as [Hall Hsorted]. split.
    + constructor; [done|]. eapply Forall_impl; [exact Hall|]. simpl. lia.
    + simpl. constructor; [done|]. by apply Forall_fmap.
  - apply IH. by apply fetched_inv_Cancelling.
  - rewrite (resume_Done _ _ o) by done. by apply IH.
Qed.

Lemma firings_not_early ws : ∀ s,
  Forall (λ f, due f <= woke_at f ∧ Forall (λ te, due f <= te.1) (effects f))
         (firings ws s).
Proof.
  induction ws as [|w ws IH]; intros s; simpl; [constructor|].
  destruct (_task s) as [|r| |o] eqn:Ht; try apply IH.
  constructor; [|apply IH]. unfold due; simpl.
  rewrite (resume_Sleeping _ _ r) by done. simpl.
  destruct (fire w r _) as [res s'] eqn:E.
  apply fire_inv in E as (Hu & (new & Hl & Hnew) & _). simpl in *.
  assert (Hlog : log (match res with
                   | Ok _ => set_task Fetching s'
                   | Raise e => set_task (Done (Raised e)) s' end) = log s' ∧
                 utcnow (match res with
                   | Ok _ => set_task Fetching s'
                   | Raise e => set_task (Done (Raised e)) s' end) = utcnow s')
    by (by destruct res).
  destruct Hlog as [-> ->]. rewrite Hl, drop_app_length, Hu. split; [lia|].
  eapply Forall_impl; [exact Hnew|]. intros te ->. lia.
Qed.

(** *** Cancelling *)

Lemma kept_nil ctx (db : gmap Z Row) : filter (kept ctx []) db = db.
Proof.
  apply map_filter_id. intros k row _. unfold kept. simpl.
  intros [H _]. by apply not_elem_of_nil in H.
Qed.

Lemma kept_cons_skip ctx idx rest (db : gmap Z Row) :
  (∀ row, db !! idx = Some row → user_id row ≠ author ctx) →
  filter (kept ctx (idx :: rest)) db = filter (kept ctx rest) db.
Proof.
  intros Hskip. apply map_filter_ext. intros k row Hk. unfold kept. simpl.
  rewrite elem_of_cons. split; intros H [Hin Hu]; apply H; split; try done.
  - by right.
  - destruct Hin as [->|Hin]; [|done]. by destruct (Hskip row Hk).
Qed.

Lemma kept_cons_delete ctx idx rest (db : gmap Z Row) row :
  db !! idx = Some row → user_id row = author ctx →
  filter (kept ctx (idx :: rest)) db = filter (kept ctx rest) (delete idx db).
Proof.
  intros Hrow Hu. apply map_eq. intros k. apply option_eq. intros row'.
  rewrite !map_lookup_filter_Some, lookup_delete_Some. unfold kept. simpl.
  rewrite elem_of_cons. split.
  - intros [Hk Hkeep]. repeat split; try done.
    + intros ->. apply Hkeep. split; [by left|]. congruence.
    + intros [Hin Hu']. apply Hkeep. split; [by right|done].
  - intros [[Hne Hk] Hkeep]. split; [done|].
    intros [[->|Hin] Hu']; [done|]. by apply Hkeep.
Qed.

Lemma bind_eq {A B} (m : M A) (k : A → M B) s :
  bind m k s =
    match m s with
    | (Ok a, s') => k a s'
    | (Raise e, s') => (Raise e, s')
    end.
Proof. done. Qed.

Lemma try_get_reminder_eq w idx s :
  api_fault w (GetReminder idx) = false →
  try_except (let* resp := api_get_reminder w idx in ret (Some resp))
             is_NotFound (ret None) s
  = (Ok (pair idx <$> api s !! idx), s).
Proof.
  intros Hw. unfold try_except, bind, api_get_reminder, request, get_reminder, ret.
  rewrite Hw. destruct (api s !! idx); simpl; by rewrite set_api_same.
Qed.

Lemma try_delete_reminder_eq w idx s :
  api_fault w (DeleteReminder idx) = false →
  try_except (api_delete_reminder w idx >> ret true) is_NotFound (ret false) s
  = (Ok (bool_decide (is_Some (api s !! idx))), set_api (delete idx (api s)) s).
Proof.
  intros Hw. unfold try_except, bind, api_delete_reminder, request, ret.
  rewrite Hw, delete_reminder_eq. by destruct (api s !! idx).
Qed.

Lemma remind_cancel_loop_spec w ctx :
  no_fault w → ∀ ids deleted s,
  ∃ n, remind_cancel_loop w ctx ids deleted s
         = (Ok n, set_api (filter (kept ctx ids) (api s)) s)
       ∧ deleted <= n
       ∧ ((∃ k row, k ∈ ids ∧ api s !! k = Some row ∧ user_id row = author ctx)
          → deleted < n).
Proof.
  intros Hw. induction ids as [|idx rest IH]; intros deleted s.
  { exists deleted. simpl. rewrite kept_nil, set_api_same. unfold ret.
    split; [done|]. split; [lia|]. intros (k & _ & Hk & _).
    by apply not_elem_of_nil in Hk. }
  simpl. rewrite bind_eq, try_get_reminder_eq by done.
  destruct (api s !! idx) as [row|] eqn:Hrow; simpl.
  - case_bool_decide as Hu.
    + destruct (IH deleted s) as (n & -> & Hle & Hlt). exists n.
      rewrite kept_cons_skip by (intros ??; congruence).
      split; [done|]. split; [done|].
      intros (k & row' & Hk & Hk' & Hu'). apply Hlt.
      apply elem_of_cons in Hk as [->|Hk]; [congruence|]. eauto.
    + rewrite bind_eq, try_delete_reminder_eq, Hrow by done.
      rewrite bool_decide_true by done.
      destruct (IH (deleted + 1) (set_api (delete idx (api s)) s))
        as (n & -> & Hle & _).
      exists n. simpl. rewrite (kept_cons_delete _ _ _ _ row) by done.
      split; [by destruct s|]. split; lia.
  - destruct (IH deleted s) as (n & -> & Hle & Hlt). exists n.
    rewrite kept_cons_skip by (intros ??; congruence).
    split; [done|]. split; [done|].
    intros (k & row' & Hk & Hk' & Hu'). apply Hlt.
    apply elem_of_cons in Hk as [->|Hk]; [congruence|]. eauto.
Qed.

(** C9: a cancellation deletes exactly the listed reminders that exist and
    belong to the requesting user; every other listed id is passed over
    without an error and every other row of the store stays as it was. *)
Theorem C9_cancel_only_own (w : World) (ctx : Context) (reminders : list Z) (s : State) :
  no_fault w →
  ∃ s', remind_cancel w ctx reminders s = (Ok tt, s')
        ∧ api s' = filter (kept ctx reminders) (api s)
        ∧ ∀ k row, api s !! k = Some row →
            api s' !! k = if decide (k ∈ reminders ∧ user_id row = author ctx)
                          then None else Some row.
Proof.
  intros Hw. unfold remind_cancel.
  unfold bind at 1, tick, modify. unfold bind at 1.
  destruct (remind_cancel_loop_spec w ctx Hw reminders 0
              (set_utcnow (utcnow s + Z.of_N (elapsed w)) s)) as (n & -> & _ & _).
  simpl.
  assert (Hpt : ∀ k row, api s !! k = Some row →
            filter (kept ctx reminders) (api s) !! k
            = if decide (k ∈ reminders ∧ user_id row = author ctx)
              then None else Some row).
  { intros k row Hk. case_decide as Hd.
    - apply map_lookup_filter_None. right. intros row' Hk' Hkeep.
      apply Hkeep. simpl. by simplify_eq.
    - by apply map_lookup_filter_Some. }
  case_bool_decide; unfold bind, gets, modify, ret; simpl.
  - destruct (_next s); simpl; eexists; (split; [done|]); simpl; done.
  - eexists; (split; [done|]); simpl; done.
Qed.

(** *** Outcomes of one firing *)

(** C3: woken for a reminder whose guild is gone, whose channel is gone or
    where the bot may not send, the loop deletes the reminder and sends
    nothing: the log of effects is unchanged. *)
Theorem C3_permanent_failure_deletes (w : World) (s : State) (r : Reminder) :
  _task s = Sleeping r →
  api_fault w (DeleteReminder r.1) = false →
  permanently_unavailable w r →
  let s' := resume w s in
  api s' = delete r.1 (api s) ∧ api s' !! r.1 = None
  ∧ log s' = log s ∧ _task s' = Fetching.
Proof.
  intros Ht Hf Hp. simpl. rewrite (resume_Sleeping _ _ r) by done. simpl.
  assert (fire w r (set_utcnow (Z.max (utcnow s) (expires_at r.2) + Z.of_N (elapsed w)) s)
          = _delete_reminder w r.1
              (set_utcnow (Z.max (utcnow s) (expires_at r.2) + Z.of_N (elapsed w)) s)) as ->.
  { unfold permanently_unavailable in Hp.
    destruct (get_guild w (guild_id r.2)) as [g|] eqn:Hg;
      [|by apply fire_guild_gone].
    destruct Hp as [Hu Hp].
    destruct (get_channel g (channel_id r.2)) as [ch|] eqn:Hc.
    - by apply (fire_forbidden _ _ g ch).
    - by apply (fire_channel_gone _ _ g). }
  rewrite _delete_reminder_eq, Hf. simpl.
  repeat split; try done. apply lookup_delete_eq.
Qed.

Lemma resume_postpones w s r g :
  _task s = Sleeping r →
  api s !! r.1 = Some r.2 →
  get_guild w (guild_id r.2) = Some g → unavailable g = true →
  api_fault w (UpdateReminder r.1 (expires_at r.2 + minutes 5)) = false →
  resume w s =
    set_task Fetching
      (set_api (<[r.1 := set_expires_at (expires_at r.2 + minutes 5) r.2]> (api s))
         (set_next None
            (set_utcnow (Z.max (utcnow s) (expires_at r.2) + Z.of_N (elapsed w)) s))).
Proof.
  intros Ht Hin Hg Hu Hf. rewrite (resume_Sleeping _ _ r) by done. simpl.
  rewrite (fire_guild_unavailable _ _ g), _reschedule_reminder_eq, Hf by done.
  simpl. do 2 f_equal.
  apply map_eq. intros k. rewrite lookup_alter, lookup_insert.
  case_decide; subst; by rewrite ?Hin.
Qed.

(** C4: woken for a reminder whose guild is unavailable, the loop sends
    nothing and deletes nothing; it writes the due time plus five minutes
    back to the store and goes on to fetch, the reminder staying in the
    store. *)
Theorem C4_unavailable_guild_postpones (w : World) (s : State) (r : Reminder) (g : Guild) :
  _task s = Sleeping r →
  api s !! r.1 = Some r.2 →
  get_guild w (guild_id r.2) = Some g → unavailable g = true →
  api_fault w (UpdateReminder r.1 (expires_at r.2 + minutes 5)) = false →
  let s' := resume w s in
  api s' = <[r.1 := set_expires_at (expires_at r.2 + minutes 5) r.2]> (api s)
  ∧ api s' !! r.1 = Some (set_expires_at (expires_at r.2 + minutes 5) r.2)
  ∧ dom (api s') = dom (api s)
  ∧ log s' = log s ∧ _task s' = Fetching.
Proof.
  intros Ht Hin Hg Hu Hf. simpl. rewrite (resume_postpones w s r g) by done.
  simpl. repeat split; try done.
  - apply lookup_insert_eq.
  - apply dom_insert_lookup_L. by rewrite Hin.
Qed.

(** C10: the due time written back on a postponement is the fetched due
    time plus 300 seconds, whatever the clock says; a task that woke up
    more than five minutes late thus writes a due time that has passed. *)
Theorem C10_postponed_from_due_time (w : World) (s : State) (r : Reminder) (g : Guild) :
  _task s = Sleeping r →
  api s !! r.1 = Some r.2 →
  get_guild w (guild_id r.2) = Some g → unavailable g = true →
  api_fault w (UpdateReminder r.1 (expires_at r.2 + minutes 5)) = false →
  let s' := resume w s in
  expires_at <$> api s' !! r.1 = Some (expires_at r.2 + 300 * 1000000)
  ∧ (300 * 1000000 < Z.of_N (elapsed w) →
     ∀ row, api s' !! r.1 = Some row → expires_at row < utcnow s').
Proof.
  intros Ht Hin Hg Hu Hf.
  simpl. rewrite (resume_postpones w s r g) by done. simpl.
  rewrite lookup_insert_eq. split; [done|].
  intros Hlate row [= <-]. simpl. unfold minutes. lia.
Qed.

(** C5: when the reply to the origin message fails with an HTTP error,
    as it does when that message is gone, the loop sends the same content
    with the same mention policy once to the channel, and then deletes the
    reminder and goes on, whether that second send succeeds or fails. *)
Theorem C5_one_fallback_then_delete (w : World) (s : State) (r : Reminder)
    (g : Guild) (ch : Channel) (status code : Z) :
  _task s = Sleeping r →
  get_guild w (guild_id r.2) = Some g → unavailable g = false →
  get_channel g (channel_id r.2) = Some ch →
  send_messages (permissions_for ch (me g)) = true →
  reply_result w = Some (status, code) →
  api_fault w (DeleteReminder r.1) = false →
  let s' := resume w s in
  let t := utcnow s' in
  let content := (notification g ch r t).1 in
  let mentions := (notification g ch r t).2 in
  log s' = log s ++ [(t, Reply (channel_id r.2) (message_id r.2) content mentions);
                     (t, Send (channel_id r.2) content mentions)]
  ∧ api s' = delete r.1 (api s) ∧ api s' !! r.1 = None
  ∧ _task s' = Fetching.
Proof.
  intros Ht Hg Hu Hc Hp Hr Hf. simpl.
  rewrite (resume_Sleeping _ _ r) by done. simpl.
  rewrite (fire_deliver _ _ g ch) by done. simpl.
  rewrite Hr, _delete_reminder_eq, Hf. simpl.
  rewrite <- app_assoc. repeat split; try done. apply lookup_delete_eq.
Qed.

(** C6: when the store answers not found, [_delete_reminder] returns
    normally and leaves the store as it is; and whenever the request gets
    an answer it returns normally, the id is then absent, and deleting
    once more changes nothing. *)
Theorem C6_delete_absent_is_success (w : World) (idx : Z) (s : State) :
  api_fault w (DeleteReminder idx) = false →
  ((delete_reminder idx (api s)).1 = Raise NotFound →
   _delete_reminder w idx s = (Ok tt, set_next None s))
  ∧ ∃ s1, _delete_reminder w idx s = (Ok tt, s1)
          ∧ api s1 !! idx = None
          ∧ _delete_reminder w idx s1 = (Ok tt, s1).
Proof.
  intros Hf. rewrite !_delete_reminder_eq, Hf. split.
  - unfold delete_reminder. destruct (api s !! idx) eqn:E; [done|]. intros _.
    rewrite delete_id by done. by destruct s.
  - eexists. split; [done|]. simpl. split; [apply lookup_delete_eq|].
    rewrite _delete_reminder_eq, Hf. simpl. by rewrite delete_delete_eq.
Qed.

(** *** The end of the task *)

Lemma resume_finished w s : finished (_task s) = true → resume w s = s.
Proof.
  destruct (_task s) as [| | |o] eqn:E; try done. intros _.
  by apply (resume_Done _ _ o).
Qed.

(** C8, as the code has it: a request of the loop that fails other than
    by not found is not caught.  At the fetch the task ends with that
    error, nothing else having happened; at the store update after a
    wake-up it ends with that error and the store is as it was; and a
    task that has ended does nothing when resumed. *)
Theorem C8_api_error_ends_task (w : World) (s : State) :
  (_task s = Fetching → is_closed w = false →
   api_fault w (GetReminders shard_id) = true →
   let s' := resume w s in
   _task s' = Done (Raised ApiError) ∧ api s' = api s ∧ log s' = log s
   ∧ _next s' = _next s ∧ ∀ w', resume w' s' = s')
  ∧ (∀ r, _task s = Sleeping r →
     api_fault w (DeleteReminder r.1) = true →
     api_fault w (UpdateReminder r.1 (expires_at r.2 + minutes 5)) = true →
     let s' := resume w s in
     _task s' = Done (Raised ApiError) ∧ api s' = api s
     ∧ ∀ w', resume w' s' = s').
Proof.
  split.
  - intros Ht Hc Hf. simpl. rewrite resume_Fetching by done. simpl.
    rewrite fetch_fault by done. simpl.
    repeat split; try (intros w'; by apply resume_finished).
  - intros r Ht Hd Hu. simpl. rewrite (resume_Sleeping _ _ r) by done. simpl.
    set (s0 := set_utcnow _ s).
    assert (∃ s1, fire w r s0 = (Raise ApiError, s1) ∧ api s1 = api s)
      as (s1 & -> & Hs1).
    { destruct (get_guild w (guild_id r.2)) as [g|] eqn:Hg.
      2:{ rewrite fire_guild_gone, _delete_reminder_eq, Hd by done. eauto. }
      destruct (unavailable g) eqn:Hun.
      { rewrite (fire_guild_unavailable _ _ g), _reschedule_reminder_eq, Hu by done.
        eauto. }
      destruct (get_channel g (channel_id r.2)) as [ch|] eqn:Hc.
      2:{ rewrite (fire_channel_gone _ _ g), _delete_reminder_eq, Hd by done. eauto. }
      destruct (send_messages (permissions_for ch (me g))) eqn:Hp.
      2:{ rewrite (fire_forbidden _ _ g ch), _delete_reminder_eq, Hd by done. eauto. }
      rewrite (fire_deliver _ _ g ch) by done. simpl.
      destruct (reply_result w); rewrite _delete_reminder_eq, Hd; eauto. }
    simpl. repeat split; try done; try (intros w'; by apply resume_finished).
Qed.

(** *** Creating and cancelling while the task sleeps *)

Lemma reschedules_true next expires :
  next = None ∨ (∃ n, next = Some n ∧ expires < n) →
  reschedules next expires = true.
Proof.
  intros [->|(n & -> & Hn)]; [done|]. simpl. apply bool_decide_true. lia.
Qed.

Lemma remind_eq w ctx time message s :
  let now := utcnow s + Z.of_N (elapsed w) in
  let expires := due_of time now in
  let data := data_of ctx message expires in
  let s0 := set_api (<[fresh (dom (api s)) := data]> (api s)) (set_utcnow now s) in
  api_fault w (CreateReminder data) = false →
  ∃ text,
    remind w ctx time message s =
      (Ok tt, add_log (CtxSend text)
                (if reschedules (_next s) expires then restarted s0 else s0)).
Proof.
  intros now expires data s0 Hf. subst s0 data expires now.
  unfold remind, data_of in *.
  rewrite bind_eq. unfold tick at 1, modify at 1.
  rewrite bind_eq. unfold gets at 1. simpl.
  destruct time as [d|t]; simpl in *;
    (rewrite bind_eq; unfold api_create_reminder, request at 1;
     rewrite Hf; simpl;
     rewrite bind_eq; unfold gets at 1; simpl;
     destruct (_next s) as [n|]; simpl;
     [case_bool_decide|]; eexists; reflexivity).
Qed.

Lemma remind_cancel_eq w ctx reminders s n :
  no_fault w →
  (∃ k row, k ∈ reminders ∧ api s !! k = Some row ∧ user_id row = author ctx) →
  _next s = Some n →
  ∃ text,
    remind_cancel w ctx reminders s =
      (Ok tt, add_log (CtxSend text)
                (restarted
                   (set_api (filter (kept ctx reminders) (api s))
                      (set_utcnow (utcnow s + Z.of_N (elapsed w)) s)))).
Proof.
  intros Hw Hex Hn. unfold remind_cancel.
  rewrite bind_eq. unfold tick at 1, modify at 1. rewrite bind_eq.
  destruct (remind_cancel_loop_spec w ctx Hw reminders 0
              (set_utcnow (utcnow s + Z.of_N (elapsed w)) s)) as (m & -> & _ & Hlt).
  rewrite bool_decide_true by (specialize (Hlt Hex); lia).
  rewrite !bind_eq. unfold gets at 1. simpl. rewrite Hn. simpl.
  eexists. reflexivity.
Qed.

Lemma resume_fetches w s :
  _task s = Fetching → is_closed w = false →
  api_fault w (GetReminders shard_id) = false →
  let s0 := set_utcnow (utcnow s + Z.of_N (elapsed w)) s in
  ((get_reminders shard_of shard_id (api s)).1 = Raise NotFound
   ∧ shard_empty (api s)
   ∧ resume w s = set_task (Done Returned) s0)
  ∨ (∃ r, earliest r (api s)
          ∧ resume w s
            = set_task (Sleeping r) (set_next (Some (expires_at r.2)) s0)).
Proof.
  intros Ht Hc Hf s0. rewrite resume_Fetching by done. cbv zeta. fold s0.
  rewrite fetch_eq by done. change (api s0) with (api s).
  destruct (get_reminders_cases (api s)) as [[E He]|(r & rest & E & Hr)];
    rewrite E; simpl; [left|right]; eauto.
Qed.

(** X26: a [remind] that finds [_next] unset or later than the new due
    time cancels the task and creates a new one, and that task, once it
    has fetched, sleeps on the earliest reminder of the store, which is
    due no later than the new one (and is the new one when every reminder
    the store had for the shard is due later).  A cancellation by its
    owner of the reminder the task sleeps on removes it, cancels the task
    and creates a new one, which after its fetch has returned, the store
    having nothing left for the shard, or sleeps on the earliest
    remaining reminder. *)
Theorem restart_on_create_and_cancel (w w' : World) (ctx : Context) (s : State) :
  no_fault w → no_fault w' → is_closed w' = false →
  (∀ time message,
     shard_of (guild ctx) = shard_id →
     let expires := due_of time (utcnow s + Z.of_N (elapsed w)) in
     _next s = None ∨ (∃ n, _next s = Some n ∧ expires < n) →
     let s1 := (remind w ctx time message s).2 in
     let s2 := resume w' s1 in
     _task s1 = Fetching
     ∧ (utcnow s1, TaskCancel (_task s)) ∈ log s1
     ∧ (utcnow s1, CreateTask) ∈ log s1
     ∧ ∃ r, _task s2 = Sleeping r ∧ _next s2 = Some (expires_at r.2)
            ∧ earliest r (api s1) ∧ expires_at r.2 <= expires
            ∧ ((∀ k row, api s !! k = Some row →
                         in_shard shard_of shard_id (k, row) →
                         expires < expires_at row) →
               r = (fresh (dom (api s)), data_of ctx message expires)))
  ∧ (∀ r reminders,
     _task s = Sleeping r → _next s = Some (expires_at r.2) →
     api s !! r.1 = Some r.2 → user_id r.2 = author ctx → r.1 ∈ reminders →
     let s1 := (remind_cancel w ctx reminders s).2 in
     let s2 := resume w' s1 in
     api s1 !! r.1 = None
     ∧ _task s1 = Fetching
     ∧ (utcnow s1, TaskCancel (Sleeping r)) ∈ log s1
     ∧ (utcnow s1, CreateTask) ∈ log s1
     ∧ (((get_reminders shard_of shard_id (api s1)).1 = Raise NotFound
         ∧ _task s2 = Done Returned)
        ∨ (∃ r', _task s2 = Sleeping r' ∧ _next s2 = Some (expires_at r'.2)
                 ∧ earliest r' (api s1)))).
Proof.
  intros Hw Hw' Hc'. split.
  - intros time message Hshard expires Hres. apply reschedules_true in Hres.
    destruct (remind_eq w ctx time message s (Hw _)) as [text ->].
    fold expires. rewrite Hres. simpl.
    set (idx := fresh (dom (api s))). set (data := data_of ctx message expires).
    set (s1 := add_log _ _).
    split; [done|]. split; [set_solver|]. split; [set_solver|].
    destruct (resume_fetches w' s1 eq_refl Hc' (Hw' _))
      as [(_ & He & _)|(r & Hr & ->)].
    { exfalso. apply (He idx data); [apply lookup_insert_eq|done]. }
    exists r. simpl. repeat split; try apply Hr; try done.
    + destruct Hr as (_ & _ & Hmin). apply (Hmin idx data); [|done].
      apply lookup_insert_eq.
    + intros Hlater. destruct Hr as (Hin & Hsh & Hmin). simpl in Hin.
      assert (Hle : expires_at r.2 <= expires).
      { apply (Hmin idx data); [apply lookup_insert_eq|done]. }
      destruct r as [k row]. simpl in *.
      apply lookup_insert_Some in Hin as [[-> ->]|[_ Hin]]; [done|].
      specialize (Hlater k row Hin Hsh). lia.
  - intros r reminders Ht Hn Hin Hu Hmem.
    destruct (remind_cancel_eq w ctx reminders s (expires_at r.2) Hw) as [text ->];
      [by exists r.1, r.2|done|].
    simpl. set (s1 := add_log _ _). rewrite Ht.
    split. { apply map_lookup_filter_None. right. intros row Hrow Hk.
             apply Hk. simpl. split; [done|]. congruence. }
    split; [done|]. split; [set_solver|]. split; [set_solver|].
    destruct (resume_fetches w' s1 eq_refl Hc' (Hw' _))
      as [(E & _ & ->)|(r' & Hr & ->)]; [left|right]; eauto.
Qed.

(** C7, as the code has it: a fetch that finds no reminder for the shard
    makes the task return; store, [_next] and log are as before and the
    finished task does nothing when resumed.  It is a later [remind],
    when it finds [_next] unset or later than its due time, that creates
    a new task, which starts at the fetch. *)
Theorem C7_empty_fetch_returns (w : World) (s : State) :
  _task s = Fetching → is_closed w = false →
  api_fault w (GetReminders shard_id) = false →
  (get_reminders shard_of shard_id (api s)).1 = Raise NotFound →
  let s' := resume w s in
  _task s' = Done Returned ∧ api s' = api s ∧ _next s' = _next s ∧ log s' = log s
  ∧ (∀ w', resume w' s' = s')
  ∧ (∀ w' ctx time message,
       no_fault w' →
       _next s = None
       ∨ (∃ n, _next s = Some n ∧ due_of time (utcnow s' + Z.of_N (elapsed w')) < n) →
       let s'' := (remind w' ctx time message s').2 in
       _task s'' = Fetching ∧ (utcnow s'', CreateTask) ∈ log s'').
Proof.
  forget_unused.
  intros Ht Hc Hf He.
  destruct (resume_fetches w s Ht Hc Hf) as [(_ & _ & ->)|(r & Hr & _)].
  2:{ destruct (get_reminders_cases (api s)) as [[E Hemp]|(r' & rest & E & _)].
      - destruct Hr as (Hin & Hsh & _). by destruct (Hemp r.1 r.2).
      - by rewrite E in He. }
  simpl. do 4 (split; [done|]).
  split. { intros w'. by apply resume_finished. }
  intros w' ctx time message Hw' Hres. apply reschedules_true in Hres.
  destruct (remind_eq w' ctx time message
              (set_task (Done Returned)
                 (set_utcnow (utcnow s + Z.of_N (elapsed w)) s)) (Hw' _))
    as [text ->].
  simpl in *. rewrite Hres. simpl. split; [done|set_solver].
Qed.

(** *** What holds in every history *)

Lemma remind_fault_eq w ctx time message s :
  api_fault w (CreateReminder
    (data_of ctx message (due_of time (utcnow s + Z.of_N (elapsed w))))) = true →
  remind w ctx time message s
  = (Raise ApiError, set_utcnow (utcnow s + Z.of_N (elapsed w)) s).
Proof.
  intros Hf. unfold remind, data_of, due_of in *.
  rewrite bind_eq. unfold tick at 1, modify at 1.
  rewrite bind_eq. unfold gets at 1. simpl.
  destruct time as [d|t]; simpl in *;
    rewrite bind_eq; unfold api_create_reminder, request at 1;
    by rewrite Hf.
Qed.

Lemma remind_frame w ctx time message s res s' :
  remind w ctx time message s = (res, s') →
  _next s' = _next s ∧ (_task s' = _task s ∨ _task s' = Fetching).
Proof.
  destruct (api_fault w (CreateReminder
              (data_of ctx message (due_of time (utcnow s + Z.of_N (elapsed w))))))
    eqn:Hf.
  - rewrite remind_fault_eq by done. intros [= <- <-]. simpl. auto.
  - destruct (remind_eq w ctx time message s Hf) as [text ->].
    intros [= <- <-]. simpl. destruct (reschedules _ _); simpl; auto.
Qed.

Lemma try_get_reminder_fault w idx s :
  api_fault w (GetReminder idx) = true →
  try_except (let* resp := api_get_reminder w idx in ret (Some resp))
             is_NotFound (ret None) s
  = (Raise ApiError, s).
Proof.
  intros Hw. unfold try_except, bind, api_get_reminder, request. by rewrite Hw.
Qed.

Lemma try_delete_reminder_fault w idx s :
  api_fault w (DeleteReminder idx) = true →
  try_except (api_delete_reminder w idx >> ret true) is_NotFound (ret false) s
  = (Raise ApiError, s).
Proof.
  intros Hw. unfold try_except, bind, api_delete_reminder, request. by rewrite Hw.
Qed.

Lemma remind_cancel_loop_frame w ctx : ∀ ids deleted s res s',
  remind_cancel_loop w ctx ids deleted s = (res, s') →
  _next s' = _next s ∧ _task s' = _task s ∧ utcnow s' = utcnow s ∧ log s' = log s.
Proof.
  induction ids as [|idx rest IH]; intros deleted s res s' H; simpl in H.
  { by injection H as <- <-. }
  rewrite bind_eq in H. destruct (api_fault w (GetReminder idx)) eqn:Hf.
  { rewrite try_get_reminder_fault in H by done. by injection H as <- <-. }
  rewrite try_get_reminder_eq in H by done.
  destruct (api s !! idx) as [row|]; simpl in H; [|by eapply IH].
  case_bool_decide; [by eapply IH|].
  rewrite bind_eq in H. destruct (api_fault w (DeleteReminder idx)) eqn:Hd.
  { rewrite try_delete_reminder_fault in H by done. by injection H as <- <-. }
  rewrite try_delete_reminder_eq in H by done.
  by apply IH in H as (-> & -> & -> & ->).
Qed.

Lemma remind_cancel_frame w ctx reminders s res s' :
  remind_cancel w ctx reminders s = (res, s') →
  _next s' = _next s ∧ (_task s' = _task s ∨ _task s' = Fetching).
Proof.
  unfold remind_cancel.
  rewrite bind_eq. unfold tick at 1, modify at 1. rewrite bind_eq.
  set (s0 := set_utcnow _ s).
  destruct (remind_cancel_loop w ctx reminders 0 s0) as [[n|e] s1] eqn:E;
    apply remind_cancel_loop_frame in E as (Hn & Ht & _ & _); simpl in *.
  2:{ intros [= <- <-]. rewrite Hn, Ht. auto. }
  case_bool_decide; rewrite !bind_eq; unfold gets, ret; simpl.
  - destruct (_next s1) eqn:E; unfold bind, restart_task, bind, gets, modify;
      simpl; intros [= <- <-]; simpl; rewrite <- ?Hn, ?Ht; auto.
  - intros [= <- <-]. simpl. rewrite Hn, Ht. auto.
Qed.

Lemma resume_sleeps_on_next w s :
  sleeps_on_next s → sleeps_on_next (resume w s).
Proof.
  intros Hs r. destruct (_task s) as [|r0| |o] eqn:Ht.
  - rewrite resume_Fetching by done. simpl.
    destruct (fetch w _) as [[pc|e] s'] eqn:E; [|done].
    apply fetch_inv in E as (_ & _ & _ & Hres). simpl. intros ->. apply Hres.
  - rewrite (resume_Sleeping _ _ r0) by done. simpl.
    by destruct (fire w r0 _) as [[[]|e] s'].
  - by rewrite resume_Cancelling by done.
  - rewrite (resume_Done _ _ o) by done. by rewrite Ht.
Qed.

Lemma step_sleeps_on_next a s :
  sleeps_on_next s → sleeps_on_next (step a s).
Proof.
  intros Hs. destruct a as [w|w ctx time message|w ctx reminders|]; simpl.
  - by apply resume_sleeps_on_next.
  - destruct (remind w ctx time message s) as [res s'] eqn:E.
    apply remind_frame in E as [Hn [Ht|Ht]];
      intros r; simpl; rewrite Hn, Ht; [apply Hs|done].
  - destruct (remind_cancel w ctx reminders s) as [res s'] eqn:E.
    apply remind_cancel_frame in E as [Hn [Ht|Ht]];
      intros r; simpl; rewrite Hn, Ht; [apply Hs|done].
  - unfold cog_unload. rewrite bind_eq. unfold gets at 1.
    destruct (_task s) eqn:E; simpl; intros r; rewrite ?E; done.
Qed.

(** Whatever the commands and the environment did since the plugin was
    loaded, a sleeping task sleeps until the time [_next] holds. *)
Lemma play_sleeps_on_next acts db now :
  sleeps_on_next (play acts (init db now)).
Proof.
  unfold play. generalize (init db now), (λ r (H : _task (init db now) = Sleeping r),
    False_ind (_next (init db now) = Some (expires_at r.2)) ltac:(discriminate H)).
  induction acts as [|a acts IH]; intros s Hs; simpl; [done|].
  apply IH. by apply step_sleeps_on_next.
Qed.

(** *** More on [remind] *)

(** X2: a [remind] for a time at or after the one [_next] holds leaves the
    task as it is, sleeping, fetching or finished: the reminder goes into
    the store under a new id and the only effect is the confirmation. *)
Theorem remind_later_leaves_task (w : World) (ctx : Context) (time : Time)
    (message : option string) (s : State) (n : datetime) :
  no_fault w →
  _next s = Some n →
  n <= due_of time (utcnow s + Z.of_N (elapsed w)) →
  let expires := due_of time (utcnow s + Z.of_N (elapsed w)) in
  let s' := (remind w ctx time message s).2 in
  _task s' = _task s ∧ _next s' = Some n
  ∧ api s' = <[fresh (dom (api s)) := data_of ctx message expires]> (api s)
  ∧ ∃ text, log s' = log s ++ [(utcnow s', CtxSend text)].
Proof.
  intros Hw Hn Hle expires s'. subst s'.
  destruct (remind_eq w ctx time message s (Hw _)) as [text ->].
  fold expires. rewrite Hn. simpl.
  rewrite bool_decide_false by lia. simpl. eauto.
Qed.

(** X1: a successful [remind] stores the request under an id the store did
    not have, where [get_reminder] finds it; every reminder that was there
    is still there, unchanged; a missing or empty message is stored as
    [something]. *)
Theorem remind_stores_request (w : World) (ctx : Context) (time : Time)
    (msg : option string) (s : State) :
  no_fault w →
  let expires := due_of time (utcnow s + Z.of_N (elapsed w)) in
  let idx := fresh (dom (api s)) in
  let s' := (remind w ctx time msg s).2 in
  api s !! idx = None
  ∧ get_reminder idx (api s') = (Ok (idx, data_of ctx msg expires), api s')
  ∧ (∀ k row, api s !! k = Some row → api s' !! k = Some row)
  ∧ size (api s') = S (size (api s))
  ∧ (truthy msg = false → message (data_of ctx msg expires) = "something")
  ∧ (truthy msg = true → Some (message (data_of ctx msg expires)) = msg).
Proof.
  intros Hw expires idx s'. subst s'.
  assert (Hfresh : api s !! idx = None).
  { apply not_elem_of_dom. apply is_fresh. }
  destruct (remind_eq w ctx time msg s (Hw _)) as [text ->].
  fold expires idx.
  assert (Hapi : api (add_log (CtxSend text)
                   (if reschedules (_next s) expires
                    then restarted
                           (set_api (<[idx := data_of ctx msg expires]> (api s))
                              (set_utcnow (utcnow s + Z.of_N (elapsed w)) s))
                    else set_api (<[idx := data_of ctx msg expires]> (api s))
                           (set_utcnow (utcnow s + Z.of_N (elapsed w)) s)))
                 = <[idx := data_of ctx msg expires]> (api s)).
  { by destruct (reschedules _ _). }
  cbn [snd]. rewrite Hapi.
  split; [done|]. split.
  { unfold get_reminder. by rewrite lookup_insert_eq. }
  split.
  { intros k row Hk. rewrite lookup_insert_ne; [done|]. intros <-. congruence. }
  split; [by apply map_size_insert_None|].
  unfold data_of; simpl. split; intros Ht; rewrite Ht; [done|].
  by destruct msg.
Qed.

(** X3: when the API request of [remind] fails, the command ends with that
    error: nothing is stored, the task is neither cancelled nor created
    anew, and nothing is sent to the user. *)
Theorem remind_failure_changes_nothing (w : World) (ctx : Context) (time : Time)
    (message : option string) (s : State) :
  api_fault w (CreateReminder
    (data_of ctx message (due_of time (utcnow s + Z.of_N (elapsed w))))) = true →
  (remind w ctx time message s).1 = Raise ApiError
  ∧ let s' := (remind w ctx time message s).2 in
    api s' = api s ∧ _task s' = _task s ∧ _next s' = _next s ∧ log s' = log s.
Proof.
  intros Hf. by rewrite remind_fault_eq.
Qed.

(** *** More on [remind_cancel] *)

(** The loop again, with the requests it makes named one by one and the
    count it returns. *)
Lemma remind_cancel_loop_count w ctx : ∀ ids deleted s,
  (∀ k, k ∈ ids → api_fault w (GetReminder k) = false
                  ∧ api_fault w (DeleteReminder k) = false) →
  remind_cancel_loop w ctx ids deleted s
  = (Ok (deleted + (Z.of_nat (size (api s))
                    - Z.of_nat (size (filter (kept ctx ids) (api s))))),
     set_api (filter (kept ctx ids) (api s)) s).
Proof.
  induction ids as [|idx rest IH]; intros deleted s Hw.
  { simpl. rewrite kept_nil, set_api_same. unfold ret. do 2 f_equal. lia. }
  destruct (Hw idx) as [Hg Hd]; [by left|].
  assert (Hrest : ∀ k, k ∈ rest → api_fault w (GetReminder k) = false
                                  ∧ api_fault w (DeleteReminder k) = false).
  { intros k Hk. apply Hw. by right. }
  simpl. rewrite bind_eq, try_get_reminder_eq by done.
  destruct (api s !! idx) as [row|] eqn:Hrow; simpl.
  - case_bool_decide as Hu.
    + rewrite IH by done. by rewrite kept_cons_skip by (intros ??; congruence).
    + rewrite bind_eq, try_delete_reminder_eq, Hrow by done.
      rewrite bool_decide_true by done. rewrite IH by done. simpl.
      rewrite (kept_cons_delete _ _ _ _ row) by done.
      assert (Hsize : size (api s) = S (size (delete idx (api s)))).
      { rewrite <- (insert_delete_id (api s) idx row) at 1 by done.
        apply map_size_insert_None, lookup_delete_eq. }
      replace (set_api (filter (kept ctx rest) (delete idx (api s)))
                 (set_api (delete idx (api s)) s))
        with (set_api (filter (kept ctx rest) (delete idx (api s))) s)
        by (by destruct s).
      do 2 f_equal. lia.
  - rewrite IH by done. by rewrite kept_cons_skip by (intros ??; congruence).
Qed.

Lemma cancellable_or_not ctx ids (db : gmap Z Row) :
  cancellable ctx ids db ∨ ¬ cancellable ctx ids db.
Proof.
  induction ids as [|idx rest IH].
  { right. intros (k & _ & Hk & _). by apply not_elem_of_nil in Hk. }
  destruct (db !! idx) as [row|] eqn:Hrow.
  - destruct (decide (user_id row = author ctx)) as [Hu|Hu].
    { left. exists idx, row. split; [by left|done]. }
    destruct IH as [(k & row' & Hk & Hk' & Hu')|IH].
    { left. exists k, row'. split; [by right|done]. }
    right. intros (k & row' & Hk & Hk' & Hu'). apply IH.
    apply elem_of_cons in Hk as [->|Hk]; [congruence|]. by exists k, row'.
  - destruct IH as [(k & row' & Hk & Hk' & Hu')|IH].
    { left. exists k, row'. split; [by right|done]. }
    right. intros (k & row' & Hk & Hk' & Hu'). apply IH.
    apply elem_of_cons in Hk as [->|Hk]; [congruence|]. by exists k, row'.
Qed.

Lemma kept_all ctx ids (db : gmap Z Row) :
  ¬ cancellable ctx ids db → filter (kept ctx ids) db = db.
Proof.
  intros Hnone. apply map_filter_id. intros k row Hk [Hin Hu].
  apply Hnone. by exists k, row.
Qed.

Lemma kept_some ctx ids (db : gmap Z Row) :
  cancellable ctx ids db → (size (filter (kept ctx ids) db) < size db)%nat.
Proof.
  intros (k & row & Hin & Hk & Hu).
  assert (Hsub : filter (kept ctx ids) db ⊆ delete k db).
  { apply map_subseteq_spec. intros k' row' H'.
    apply map_lookup_filter_Some in H' as [H' Hkept].
    apply lookup_delete_Some. split; [|done]. intros <-.
    apply Hkept. simpl. split; [done|]. congruence. }
  apply map_subseteq_size in Hsub.
  assert (size db = S (size (delete k db))).
  { rewrite <- (insert_delete_id db k row) at 1 by done.
    apply map_size_insert_None, lookup_delete_eq. }
  lia.
Qed.

Lemma remind_cancel_nothing_to_delete_eq w ctx reminders s :
  no_fault w →
  ¬ cancellable ctx reminders (api s) →
  remind_cancel w ctx reminders s
  = (Ok tt,
     add_log (CtxSend "Unable to delete reminder, it may already be deleted or not belong to you.")
       (set_utcnow (utcnow s + Z.of_N (elapsed w)) s)).
Proof.
  intros Hw Hnone. unfold remind_cancel.
  rewrite bind_eq. unfold tick at 1, modify at 1. rewrite bind_eq.
  rewrite remind_cancel_loop_count by (intros k _; split; apply Hw).
  simpl. rewrite kept_all by done.
  rewrite bool_decide_false by lia.
  rewrite bind_eq. unfold ret at 1. unfold modify. by destruct s.
Qed.

(** X4: when no listed reminder exists and belongs to the author, the
    command changes neither the store nor the task, and its one effect is
    to tell the user that it could not delete anything. *)
Theorem remind_cancel_nothing_to_delete (w : World) (ctx : Context)
    (reminders : list Z) (s : State) :
  no_fault w →
  ¬ cancellable ctx reminders (api s) →
  (remind_cancel w ctx reminders s).1 = Ok tt
  ∧ let s' := (remind_cancel w ctx reminders s).2 in
    api s' = api s ∧ _task s' = _task s ∧ _next s' = _next s
    ∧ log s' = log s ++ [(utcnow s', CtxSend
        "Unable to delete reminder, it may already be deleted or not belong to you.")].
Proof.
  intros Hw Hnone. by rewrite remind_cancel_nothing_to_delete_eq.
Qed.

Lemma remind_cancel_deleting_eq w ctx reminders s :
  no_fault w →
  cancellable ctx reminders (api s) →
  let db := filter (kept ctx reminders) (api s) in
  let n := Z.of_nat (size (api s)) - Z.of_nat (size db) in
  let s0 := set_api db (set_utcnow (utcnow s + Z.of_N (elapsed w)) s) in
  remind_cancel w ctx reminders s
  = (Ok tt,
     add_log (CtxSend ("Successfully deleted " +:+ Plural n "reminder" +:+ "."))
       (match _next s with Some _ => restarted s0 | None => s0 end)).
Proof.
  intros Hw Hsome db n s0. unfold remind_cancel.
  rewrite bind_eq. unfold tick at 1, modify at 1. rewrite bind_eq.
  rewrite remind_cancel_loop_count by (intros k _; split; apply Hw).
  apply kept_some in Hsome. simpl. fold db. fold db in Hsome.
  rewrite bool_decide_true by lia.
  rewrite !bind_eq. unfold gets at 1. simpl.
  replace (0 + (Z.of_nat (size (api s)) - Z.of_nat (size db))) with n by (unfold n; lia).
  by destruct (_next s).
Qed.

(** X5: the number the command reports is the number of rows that left the
    store, so an id listed twice counts once; the report is the last
    effect of the command. *)
Theorem remind_cancel_reports_rows_removed (w : World) (ctx : Context)
    (reminders : list Z) (s : State) :
  no_fault w →
  cancellable ctx reminders (api s) →
  let s' := (remind_cancel w ctx reminders s).2 in
  let n := Z.of_nat (size (api s)) - Z.of_nat (size (api s')) in
  0 < n
  ∧ last (log s')
    = Some (utcnow s', CtxSend ("Successfully deleted " +:+ Plural n "reminder" +:+ ".")).
Proof.
  intros Hw Hsome. rewrite remind_cancel_deleting_eq by done.
  apply kept_some in Hsome.
  destruct (_next s); cbn [snd]; simpl api; simpl log; simpl utcnow;
    (split; [lia|]); by rewrite last_snoc.
Qed.

(** X6: the command cancels the task and creates a new one exactly when
    it deleted something while [_next] was set; otherwise the task is the
    one it was. *)
Theorem remind_cancel_restarts_exactly_when (w : World) (ctx : Context)
    (reminders : list Z) (s : State) :
  no_fault w →
  let s' := (remind_cancel w ctx reminders s).2 in
  ((utcnow s', CreateTask) ∈ new_effects s s'
   ↔ cancellable ctx reminders (api s) ∧ _next s ≠ None)
  ∧ (¬ (cancellable ctx reminders (api s) ∧ _next s ≠ None) → _task s' = _task s).
Proof.
  forget_unused. intros Hw. unfold new_effects.
  destruct (cancellable_or_not ctx reminders (api s)) as [Hsome|Hnone].
  2:{ rewrite remind_cancel_nothing_to_delete_eq by done. simpl.
      rewrite drop_app_length. split; [|done]. split; [|tauto].
      intros H. apply list_elem_of_singleton in H. done. }
  rewrite remind_cancel_deleting_eq by done.
  destruct (_next s) eqn:Hn; simpl.
  - rewrite <- !app_assoc, drop_app_length. split; [|intros H; by destruct H].
    split; [done|]. intros _. set_solver.
  - rewrite drop_app_length. split; [|done]. split; [|by intros [_ H]].
    intros H. apply list_elem_of_singleton in H. done.
Qed.

Lemma remind_cancel_loop_fails w ctx idx after : ∀ before deleted s,
  (∀ k, k ∈ before → api_fault w (GetReminder k) = false
                     ∧ api_fault w (DeleteReminder k) = false) →
  api_fault w (GetReminder idx) = true →
  remind_cancel_loop w ctx (before ++ idx :: after) deleted s
  = (Raise ApiError, set_api (filter (kept ctx before) (api s)) s).
Proof.
  induction before as [|k before IH]; intros deleted s Hw Hf.
  { simpl. rewrite bind_eq, try_get_reminder_fault by done.
    by rewrite kept_nil, set_api_same. }
  destruct (Hw k) as [Hg Hd]; [by left|].
  assert (Hrest : ∀ k', k' ∈ before → api_fault w (GetReminder k') = false
                                      ∧ api_fault w (DeleteReminder k') = false).
  { intros k' Hk'. apply Hw. by right. }
  simpl. rewrite bind_eq, try_get_reminder_eq by done.
  destruct (api s !! k) as [row|] eqn:Hrow; simpl.
  - case_bool_decide as Hu.
    + rewrite IH by done. by rewrite kept_cons_skip by (intros ??; congruence).
    + rewrite bind_eq, try_delete_reminder_eq, Hrow by done.
      rewrite IH by done. simpl.
      rewrite (kept_cons_delete _ _ _ _ row) by done. by destruct s.
  - rewrite IH by done. by rewrite kept_cons_skip by (intros ??; congruence).
Qed.

(** X7: when a request fails in the middle of the list, the command ends
    with that error: what it deleted before stays deleted, the task is
    not cancelled even if the reminder it sleeps on is among them, and
    nothing is sent to the user. *)
Theorem remind_cancel_fails_midway (w : World) (ctx : Context)
    (before : list Z) (idx : Z) (after : list Z) (s : State) :
  (∀ k, k ∈ before → api_fault w (GetReminder k) = false
                     ∧ api_fault w (DeleteReminder k) = false) →
  api_fault w (GetReminder idx) = true →
  (remind_cancel w ctx (before ++ idx :: after) s).1 = Raise ApiError
  ∧ let s' := (remind_cancel w ctx (before ++ idx :: after) s).2 in
    api s' = filter (kept ctx before) (api s)
    ∧ _task s' = _task s ∧ _next s' = _next s ∧ log s' = log s.
Proof.
  intros Hw Hf.
  assert (remind_cancel w ctx (before ++ idx :: after) s
          = (Raise ApiError,
             set_api (filter (kept ctx before) (api s))
               (set_utcnow (utcnow s + Z.of_N (elapsed w)) s))) as ->.
  { unfold remind_cancel.
    rewrite bind_eq. unfold tick at 1, modify at 1. rewrite bind_eq.
    by rewrite remind_cancel_loop_fails. }
  done.
Qed.

(** *** More on the firing *)

(** What a wake-up adds to the log, whether or not the store update that
    follows succeeds. *)
Lemma resume_log w s r :
  _task s = Sleeping r →
  let t := Z.max (utcnow s) (expires_at r.2) + Z.of_N (elapsed w) in
  log (resume w s) = log s ++ (pair t <$> deliveries w r t)
  ∧ utcnow (resume w s) = t.
Proof.
  intros Ht t. rewrite (resume_Sleeping _ _ r) by done. cbv zeta. fold t.
  unfold deliveries.
  assert (Hdel : ∀ s0, log (match _delete_reminder w r.1 s0 with
                            | (Ok _, s') => set_task Fetching s'
                            | (Raise e, s') => set_task (Done (Raised e)) s'
                            end) = log s0
                       ∧ utcnow (match _delete_reminder w r.1 s0 with
                            | (Ok _, s') => set_task Fetching s'
                            | (Raise e, s') => set_task (Done (Raised e)) s'
                            end) = utcnow s0).
  { intros s0. rewrite _delete_reminder_eq. by destruct (api_fault w _). }
  destruct (get_guild w (guild_id r.2)) as [g|] eqn:Hg.
  2:{ rewrite fire_guild_gone by done. destruct (Hdel (set_utcnow t s)) as [-> ->].
      simpl. by rewrite app_nil_r. }
  destruct (unavailable g) eqn:Hun.
  { rewrite (fire_guild_unavailable _ _ g), _reschedule_reminder_eq by done.
    destruct (api_fault w _); simpl; by rewrite app_nil_r. }
  destruct (get_channel g (channel_id r.2)) as [ch|] eqn:Hc.
  2:{ rewrite (fire_channel_gone _ _ g) by done.
      destruct (Hdel (set_utcnow t s)) as [-> ->]. simpl. by rewrite app_nil_r. }
  destruct (send_messages (permissions_for ch (me g))) eqn:Hp.
  2:{ rewrite (fire_forbidden _ _ g ch) by done.
      destruct (Hdel (set_utcnow t s)) as [-> ->]. simpl. by rewrite app_nil_r. }
  rewrite (fire_deliver _ _ g ch) by done. cbv zeta.
  destruct (reply_result w);
    match goal with |- context [_delete_reminder w r.1 ?s0] =>
      destruct (Hdel s0) as [-> ->] end; simpl; by rewrite <- ?app_assoc.
Qed.

(** X8: what the task sends is made from the reminder as it fetched it:
    whatever the store holds when the task wakes up (the reminder deleted
    by its owner, say, without the task having been cancelled), the
    messages are the same. *)
Theorem firing_uses_fetched_copy (w : World) (s : State) (r : Reminder)
    (db : gmap Z Row) :
  _task s = Sleeping r →
  log (resume w (set_api db s)) = log (resume w s).
Proof.
  intros Ht.
  destruct (resume_log w s r Ht) as [-> _].
  by destruct (resume_log w (set_api db s) r Ht) as [-> _].
Qed.

(** X9: a wake-up sends nothing, or one reply, or one reply followed by one
    standalone message with the same content and mention policy, the
    latter only when the reply failed.  User mentions and the mention of
    the replied-to user are always allowed; mentioning everyone is allowed
    only when the owner is still a member and may do so in the channel. *)
Theorem firing_sends_at_most_twice (w : World) (s : State) (r : Reminder) :
  _task s = Sleeping r →
  let sent := snd <$> new_effects s (resume w s) in
  sent = []
  ∨ ∃ c m,
      (sent = [Reply (channel_id r.2) (message_id r.2) c m]
       ∨ (reply_result w ≠ None
          ∧ sent = [Reply (channel_id r.2) (message_id r.2) c m;
                    Send (channel_id r.2) c m]))
      ∧ users m = true ∧ replied_user m = true
      ∧ (everyone m = true →
         ∃ g ch member,
           get_guild w (guild_id r.2) = Some g
           ∧ get_channel g (channel_id r.2) = Some ch
           ∧ get_member g (user_id r.2) = Some member
           ∧ mention_everyone (permissions_for ch member) = true).
Proof.
  intros Ht sent. subst sent. unfold new_effects.
  destruct (resume_log w s r Ht) as [-> _].
  rewrite drop_app_length.
  assert (Hsnd : ∀ (t : Z) (l : list Event), (pair t <$> l).*2 = l).
  { intros t l. induction l as [|e l IH]; [done|]. by rewrite !fmap_cons, IH. }
  rewrite Hsnd. unfold deliveries.
  destruct (get_guild w (guild_id r.2)) as [g|] eqn:Hg; [|by left].
  destruct (unavailable g); [by left|].
  destruct (get_channel g (channel_id r.2)) as [ch|] eqn:Hc; [|by left].
  destruct (send_messages (permissions_for ch (me g))); [|by left].
  right. eexists _, _. split.
  { destruct (reply_result w); [right|left]; done. }
  unfold notification; simpl. split; [done|]. split; [done|].
  destruct (get_member g (user_id r.2)) as [member|] eqn:Hm; [|done].
  intros He. by exists g, ch, member.
Qed.

(** X10: when the reply succeeds the task sends nothing else, whatever a
    standalone message would have met, and deletes the reminder. *)
Theorem delivery_by_reply_alone (w : World) (s : State) (r : Reminder)
    (g : Guild) (ch : Channel) :
  _task s = Sleeping r →
  get_guild w (guild_id r.2) = Some g → unavailable g = false →
  get_channel g (channel_id r.2) = Some ch →
  send_messages (permissions_for ch (me g)) = true →
  reply_result w = None →
  api_fault w (DeleteReminder r.1) = false →
  let s' := resume w s in
  let t := utcnow s' in
  log s' = log s ++ [(t, Reply (channel_id r.2) (message_id r.2)
                              (notification g ch r t).1 (notification g ch r t).2)]
  ∧ api s' = delete r.1 (api s) ∧ _task s' = Fetching ∧ _next s' = None.
Proof.
  intros Ht Hg Hu Hc Hp Hr Hf. simpl.
  rewrite (resume_Sleeping _ _ r) by done. simpl.
  rewrite (fire_deliver _ _ g ch) by done. simpl.
  by rewrite Hr, _delete_reminder_eq, Hf.
Qed.

(** X11: a task that wakes up for a reminder that is no longer in the store
    while the guild is unavailable does not bring the reminder back: the
    update meets not found, which is passed over, and the store is as it
    was. *)
Theorem postponing_a_deleted_reminder (w : World) (s : State) (r : Reminder) (g : Guild) :
  _task s = Sleeping r →
  api s !! r.1 = None →
  get_guild w (guild_id r.2) = Some g → unavailable g = true →
  api_fault w (UpdateReminder r.1 (expires_at r.2 + minutes 5)) = false →
  let s' := resume w s in
  api s' = api s ∧ log s' = log s ∧ _task s' = Fetching ∧ _next s' = None.
Proof.
  intros Ht Hin Hg Hu Hf. simpl.
  rewrite (resume_Sleeping _ _ r) by done. simpl.
  rewrite (fire_guild_unavailable _ _ g), _reschedule_reminder_eq, Hf by done.
  simpl. repeat split.
  apply map_eq. intros k. rewrite lookup_alter.
  case_decide; subst; by rewrite ?Hin.
Qed.

(** *** Unloading *)

Lemma firings_finished ws : ∀ s,
  finished (_task s) = true → firings ws s = [] ∧ run ws s = s.
Proof.
  induction ws as [|w ws IH]; intros s Hf; simpl; [done|].
  rewrite resume_finished by done.
  destruct (IH s Hf) as [-> ->]. by destruct (_task s).
Qed.

Lemma play_finished acts : ∀ s,
  finished (_task s) = true → Forall (λ a, turn_or_unload a = true) acts →
  play acts s = s.
Proof.
  induction acts as [|a acts IH]; intros s Hf Hacts; [done|].
  apply Forall_cons in Hacts as [Ha Hacts].
  change (play (a :: acts) s) with (play acts (step a s)).
  assert (step a s = s) as ->; [|by apply IH].
  destruct a as [w| | |]; try done; simpl.
  - by apply resume_finished.
  - unfold cog_unload. rewrite bind_eq. unfold gets.
    by destruct (_task s).
Qed.

Lemma play_cancelling acts : ∀ s,
  _task s = Cancelling → Forall (λ a, turn_or_unload a = true) acts →
  let s' := play acts s in
  api s' = api s ∧ _next s' = _next s
  ∧ log s' = log s ++ replicate (unloads_before_turn acts) (utcnow s, TaskCancel Cancelling)
  ∧ _task s' = if turns acts then Done Cancelled else Cancelling.
Proof.
  induction acts as [|a acts IH]; intros s Ht Hacts.
  { simpl. by rewrite app_nil_r. }
  apply Forall_cons in Hacts as [Ha Hacts].
  change (play (a :: acts) s) with (play acts (step a s)).
  destruct a as [w| | |]; try done.
  - cbn [step]. rewrite resume_Cancelling by done.
    rewrite play_finished by done. simpl. by rewrite app_nil_r.
  - assert (step Unload s = set_task Cancelling (add_log (TaskCancel Cancelling) s))
      as ->.
    { simpl. unfold cog_unload. rewrite bind_eq. unfold gets. by rewrite Ht. }
    destruct (IH (set_task Cancelling (add_log (TaskCancel Cancelling) s))
                eq_refl Hacts) as (Ha' & Hn & Hl & Htask).
    cbv zeta. rewrite Ha', Hn, Hl, Htask. simpl.
    by rewrite <- app_assoc.
Qed.

(** X12: [cog_unload] only asks for the cancellation.  Unloaded while its
    task is suspended at the fetch or asleep on a reminder, and with no
    command run afterwards, the plugin does nothing but ask: each unload
    before the event loop next turns asks again, at that turn the task
    ends cancelled, and later unloads do nothing.  The reminder the task
    slept on is neither delivered nor taken out of the store, and [_next]
    keeps its due time. *)
Theorem unload_cancels_at_the_next_turn (s : State) (acts : list Action) :
  finished (_task s) = false →
  Forall (λ a, turn_or_unload a = true) acts →
  let s' := play (Unload :: acts) s in
  api s' = api s ∧ _next s' = _next s
  ∧ snd <$> new_effects s s'
    = TaskCancel (_task s) :: replicate (unloads_before_turn acts) (TaskCancel Cancelling)
  ∧ _task s' = if turns acts then Done Cancelled else Cancelling.
Proof.
  intros Hf Hacts.
  change (play (Unload :: acts) s) with (play acts (step Unload s)).
  assert (step Unload s = set_task Cancelling (add_log (TaskCancel (_task s)) s))
    as ->.
  { simpl. unfold cog_unload. rewrite bind_eq. unfold gets.
    by destruct (_task s). }
  destruct (play_cancelling acts
              (set_task Cancelling (add_log (TaskCancel (_task s)) s))
              eq_refl Hacts) as (Ha & Hn & Hl & Ht).
  cbv zeta. rewrite Ha, Hn, Ht. repeat split.
  unfold new_effects. rewrite Hl. simpl.
  rewrite <- app_assoc, drop_app_length. simpl. f_equal.
  rewrite fmap_replicate. done.
Qed.


(** *** The loop and its shard *)

Lemma resume_step_store w s lb :
  fetched_inv lb s →
  ∃ lb', fetched_inv lb' (resume w s)
         ∧ ∀ k row, ¬ in_shard shard_of shard_id (k, row) →
                    (api (resume w s) !! k = Some row ↔ api s !! k = Some row).
Proof.
  forget_unused.
  intros Hinv. destruct (_task s) as [|r| |o] eqn:Ht.
  - exists lb. split; [by apply fetched_inv_Fetching|].
    intros k row _. rewrite resume_Fetching by done. cbv zeta.
    destruct (fetch w _) as [res s'] eqn:E.
    apply fetch_inv in E as (Ha & _). simpl in Ha.
    by destruct res; simpl; rewrite Ha.
  - destruct (fetched_inv_Sleeping w s r lb Ht Hinv) as [_ Hinv'].
    exists (expires_at r.2). split; [done|].
    destruct Hinv as [_ Hs]. destruct (Hs r Ht) as (Hin & Hsh & _).
    intros k row Hout. rewrite (resume_Sleeping _ _ r) by done. cbv zeta.
    destruct (fire w r _) as [res s'] eqn:E.
    apply fire_inv in E as (_ & _ & Hst). simpl in Hst.
    assert (Hne : ∀ row', k = r.1 → ¬ (guild_id row' = guild_id r.2 ∧ row = row')).
    { intros row' -> [Hg ->]. apply Hout. unfold in_shard in *. simpl.
      by rewrite Hg. }
    assert (api s' !! k = Some row ↔ api s !! k = Some row) as Hiff.
    { destruct Hst as [->|[->| ->]]; [done| |].
      - rewrite lookup_delete_Some. split; [tauto|]. intros Hk. split; [|done].
        intros <-. apply (Hne r.2 eq_refl). split; [done|congruence].
      - rewrite lookup_alter. case_decide as Hk; [|done]. subst k.
        rewrite Hin. simpl. split; intros [= <-]; exfalso.
        + by apply (Hne (set_expires_at (expires_at r.2 + minutes 5) r.2) eq_refl).
        + by apply (Hne r.2 eq_refl). }
    by destruct res.
  - exists lb. split; [by apply fetched_inv_Cancelling|].
    intros k row _. by rewrite resume_Cancelling by done.
  - rewrite (resume_Done _ _ o) by done. eauto.
Qed.

Lemma loop_leaves_other_shards_aux ws s :
  _task s = Fetching →
  ∀ k row, ¬ in_shard shard_of shard_id (k, row) →
           (api (run ws s) !! k = Some row ↔ api s !! k = Some row).
Proof.
  forget_unused.
  intros Ht.
  assert (Hgen : ∀ ws s lb, fetched_inv lb s →
            ∀ k row, ¬ in_shard shard_of shard_id (k, row) →
                     (api (run ws s) !! k = Some row ↔ api s !! k = Some row)).
  { clear. induction ws as [|w ws IH]; intros s lb Hinv k row Hout; [done|].
    destruct (resume_step_store w s lb Hinv) as (lb' & Hinv' & Hstep).
    cbn [run foldl]. change (foldl _ ?s0 ws) with (run ws s0).
    rewrite (IH _ lb' Hinv' k row Hout). by apply Hstep. }
  destruct (get_reminders_cases (api s)) as [[_ He]|(r & _ & _ & Hr)].
  - apply (Hgen ws s 0). split; [|by rewrite Ht].
    intros k row Hk Hin. by destruct (He k row).
  - apply (Hgen ws s (expires_at r.2)). split; [|by rewrite Ht]. apply Hr.
Qed.

(** X13: the loop only ever touches reminders of its own shard: whatever the
    worlds it runs through, failing requests and unavailable guilds
    included, a row of another shard is in the store after the run exactly
    if it was there before, unchanged. *)
Theorem loop_leaves_other_shards (ws : list World) (s : State) :
  _task s = Fetching →
  ∀ k row, ¬ in_shard shard_of shard_id (k, row) →
           (api (run ws s) !! k = Some row ↔ api s !! k = Some row).
Proof. apply loop_leaves_other_shards_aux. Qed.

Lemma resume_serves_deletes w s r :
  serves w → _task s = Sleeping r →
  _task (resume w s) = Fetching ∧ api (resume w s) = delete r.1 (api s).
Proof.
  intros (_ & Hw & Hup) Ht. rewrite (resume_Sleeping _ _ r) by done. cbv zeta.
  set (s0 := set_utcnow _ s).
  assert (∃ s1, fire w r s0 = (Ok tt, s1) ∧ api s1 = delete r.1 (api s))
    as (s1 & -> & Hs1).
  { destruct (get_guild w (guild_id r.2)) as [g|] eqn:Hg.
    2:{ rewrite fire_guild_gone, _delete_reminder_eq, Hw by done. eauto. }
    pose proof (Hup _ _ Hg) as Hun.
    destruct (get_channel g (channel_id r.2)) as [ch|] eqn:Hc.
    2:{ rewrite (fire_channel_gone _ _ g), _delete_reminder_eq, Hw by done. eauto. }
    destruct (send_messages (permissions_for ch (me g))) eqn:Hp.
    2:{ rewrite (fire_forbidden _ _ g ch), _delete_reminder_eq, Hw by done. eauto. }
    rewrite (fire_deliver _ _ g ch) by done. cbv zeta.
    destruct (reply_result w); rewrite _delete_reminder_eq, Hw; eauto. }
  done.
Qed.

Lemma shard_rows_empty (db : gmap Z Row) :
  shard_empty db ↔ shard_rows db = ∅.
Proof.
  unfold shard_rows. rewrite map_empty_filter. unfold shard_empty, map_Forall.
  split; intros H k row Hk; by apply (H k row).
Qed.

Lemma shard_rows_earliest (db : gmap Z Row) r :
  earliest r db →
  shard_rows db !! r.1 = Some r.2
  ∧ shard_rows (delete r.1 db) = delete r.1 (shard_rows db).
Proof.
  intros (Hin & Hsh & _). split.
  - apply map_lookup_filter_Some. split; [done|]. by destruct r.
  - unfold shard_rows. by rewrite map_filter_delete.
Qed.

Lemma loop_drains n : ∀ ws s,
  size (shard_rows (api s)) = n →
  Forall serves ws → _task s = Fetching → (2 * n < length ws)%nat →
  _task (run ws s) = Done Returned
  ∧ shard_rows (api (run ws s)) = ∅
  ∧ fired <$> firings ws s ≡ₚ map_to_list (shard_rows (api s)).
Proof.
  forget_unused.
  induction n as [|n IH]; intros ws s Hn Hws Ht Hlen.
  - apply map_size_empty_inv in Hn.
    destruct ws as [|w ws]; [simpl in Hlen; lia|].
    apply Forall_cons in Hws as [(Hc & Hw & _) _].
    destruct (resume_fetches w s Ht Hc (Hw _)) as [(_ & _ & Hres)|(r & Hr & _)].
    2:{ apply shard_rows_earliest in Hr as [Hr _]. by rewrite Hn in Hr. }
    cbn [run foldl firings]. change (foldl _ ?s0 ws) with (run ws s0).
    rewrite Ht, Hres.
    destruct (firings_finished ws (set_task (Done Returned)
                (set_utcnow (utcnow s + Z.of_N (elapsed w)) s)) eq_refl) as [-> ->].
    simpl. by rewrite Hn, map_to_list_empty.
  - destruct ws as [|w1 [|w2 ws]]; [simpl in Hlen; lia..|].
    apply Forall_cons in Hws as [Hw1 Hws]. apply Forall_cons in Hws as [Hw2 Hws].
    destruct Hw1 as (Hc1 & Hf1 & Hu1).
    destruct (resume_fetches w1 s Ht Hc1 (Hf1 _)) as [(_ & He & _)|(r & Hr & Hres)].
    { apply shard_rows_empty in He. rewrite He, map_size_empty in Hn. lia. }
    set (s1 := resume w1 s).
    assert (Ht1 : _task s1 = Sleeping r) by (unfold s1; by rewrite Hres).
    assert (Ha1 : api s1 = api s) by (unfold s1; by rewrite Hres).
    destruct (resume_serves_deletes w2 s1 r Hw2 Ht1) as [Ht2 Ha2].
    rewrite Ha1 in Ha2.
    destruct (shard_rows_earliest _ _ Hr) as [Hrow Hdel].
    assert (Hn2 : size (shard_rows (api (resume w2 s1))) = n).
    { rewrite Ha2, Hdel.
      assert (size (shard_rows (api s)) = S (size (delete r.1 (shard_rows (api s))))).
      { rewrite <- (insert_delete_id (shard_rows (api s)) r.1 r.2) at 1 by done.
        apply map_size_insert_None, lookup_delete_eq. }
      lia. }
    destruct (IH ws (resume w2 s1) Hn2 Hws Ht2) as (Hdone & Hempty & Hperm).
    { simpl in Hlen. lia. }
    cbn [run foldl firings]. change (foldl _ ?s0 ws) with (run ws s0).
    fold s1. rewrite Ht, Ht1. cbn [fmap list_fmap]. simpl fired.
    split; [done|]. split; [done|].
    change (list_fmap _ _ fired (firings ws (resume w2 s1)))
      with (fired <$> firings ws (resume w2 s1)).
    rewrite Hperm, Ha2, Hdel.
    rewrite <- (insert_delete_id (shard_rows (api s)) r.1 r.2) at 2 by done.
    rewrite map_to_list_insert by apply lookup_delete_eq. by destruct r.
Qed.

(** *** The order of the firings *)

Lemma fetched_perm (db : gmap Z Row) l :
  get_reminders shard_of shard_id db = (Ok l, db) →
  l ≡ₚ map_to_list (shard_rows db) ∧ StronglySorted due_le l.
Proof.
  forget_unused.
  intros Hl. destruct (fetched_spec db) as [Hin Hsorted]. cbv zeta in *.
  unfold get_reminders in Hl.
  assert (l = merge_sort due_le (filter (in_shard shard_of shard_id) (map_to_list db)))
    as ->.
  { destruct (merge_sort due_le _); [done|]. by injection Hl as <-. }
  split; [|done].
  rewrite merge_sort_Permutation.
  apply NoDup_Permutation.
  - apply NoDup_filter, NoDup_map_to_list.
  - apply NoDup_map_to_list.
  - intros [k row]. rewrite list_elem_of_filter, !elem_of_map_to_list.
    unfold shard_rows. rewrite map_lookup_filter_Some. tauto.
Qed.

Lemma NoDup_fmap_eq {A B} (f : A → B) (l : list A) x y :
  NoDup (f <$> l) → x ∈ l → y ∈ l → f x = f y → x = y.
Proof.
  induction l as [|a l IH]; intros Hnd Hx Hy Hf.
  { by apply not_elem_of_nil in Hx. }
  rewrite fmap_cons in Hnd. apply NoDup_cons in Hnd as [Ha Hnd].
  apply elem_of_cons in Hx as [->|Hx]; apply elem_of_cons in Hy as [->|Hy].
  - done.
  - exfalso. apply Ha. rewrite Hf. by apply list_elem_of_fmap_2.
  - exfalso. apply Ha. rewrite <- Hf. by apply list_elem_of_fmap_2.
  - by apply IH.
Qed.

Lemma fired_sorted (fs : list Firing) :
  StronglySorted Z.le (due <$> fs) → StronglySorted due_le (fired <$> fs).
Proof.
  induction fs as [|f fs IH]; intros Hs; [constructor|].
  rewrite fmap_cons in Hs. apply StronglySorted_inv in Hs as [Hs Hall].
  rewrite fmap_cons. constructor; [by apply IH|].
  rewrite Forall_fmap in Hall. rewrite Forall_fmap.
  eapply Forall_impl; [exact Hall|]. done.
Qed.

(** C2: a loop task that starts at its fetch takes the first reminder of
    the fetch answer, goes to sleep on it with its due time in [_next],
    and when it is next resumed goes on no earlier than that time and
    makes the delivery for that reminder.  Through any worlds the task
    wakes up for reminders in non-decreasing order of due time, never
    before the due time of the reminder it slept on, and has all its
    effects (the delivery attempts among them) at or after that time.
    Where the bot is open, the API answers and no guild is unavailable,
    the reminders the shard has pending, if their due times are distinct,
    are woken up for one after the other in the order of the fetch
    answer, each once, after which the task returns. *)
Theorem C2_firings_in_due_order (ws : list World) (s : State) :
  _task s = Fetching →
  StronglySorted Z.le (due <$> firings ws s)
  ∧ Forall (λ f, due f <= woke_at f ∧ Forall (λ te, due f <= te.1) (effects f))
           (firings ws s)
  ∧ (∀ w r, _task (resume w s) = Sleeping r →
            earliest r (api s) ∧ _next (resume w s) = Some (expires_at r.2))
  ∧ (∀ w r rest,
       is_closed w = false → api_fault w (GetReminders shard_id) = false →
       get_reminders shard_of shard_id (api s) = (Ok (r :: rest), api s) →
       let s1 := resume w s in
       _task s1 = Sleeping r ∧ _next s1 = Some (expires_at r.2)
       ∧ api s1 = api s ∧ log s1 = log s
       ∧ ∀ w', let s2 := resume w' s1 in
               firings [w'] s1
               = [{| fired := r; woke_at := utcnow s2; effects := new_effects s1 s2 |}]
               ∧ expires_at r.2 <= utcnow s2
               ∧ new_effects s1 s2 = pair (utcnow s2) <$> deliveries w' r (utcnow s2))
  ∧ (∀ l,
       get_reminders shard_of shard_id (api s) = (Ok l, api s) →
       NoDup ((λ r, expires_at r.2) <$> l) →
       Forall serves ws → (2 * length l < length ws)%nat →
       fired <$> firings ws s = l ∧ _task (run ws s) = Done Returned).
Proof.
  forget_unused.
  intros Ht.
  assert (Hsorted : StronglySorted Z.le (due <$> firings ws s)).
  { destruct (get_reminders_cases (api s)) as [[_ He]|(r & _ & _ & Hr)].
    - apply (firings_sorted ws s 0). split; [|by rewrite Ht].
      intros k row Hk Hin. by destruct (He k row).
    - apply (firings_sorted ws s (expires_at r.2)). split; [|by rewrite Ht].
      apply Hr. }
  split; [done|]. split; [apply firings_not_early|]. split; [|split].
  - intros w r. rewrite resume_Fetching by done. simpl.
    destruct (fetch w _) as [[pc|e] s'] eqn:E; [|done].
    apply fetch_inv in E as (_ & _ & _ & Hres).
    simpl. by intros ->.
  - intros w r rest Hc Hf Hl s1.
    assert (Hs1 : s1 = set_task (Sleeping r)
                         (set_next (Some (expires_at r.2))
                            (set_utcnow (utcnow s + Z.of_N (elapsed w)) s))).
    { unfold s1. rewrite resume_Fetching by done. cbv zeta.
      rewrite fetch_eq by done. simpl. by rewrite Hl. }
    rewrite Hs1. do 4 (split; [done|]).
    intros w' s2.
    destruct (resume_log w' (set_task (Sleeping r)
                               (set_next (Some (expires_at r.2))
                                  (set_utcnow (utcnow s + Z.of_N (elapsed w)) s)))
                r eq_refl) as [Hlog Hnow].
    cbv zeta in Hlog, Hnow. fold s2 in Hlog, Hnow.
    assert (Hnew : new_effects
                     (set_task (Sleeping r)
                        (set_next (Some (expires_at r.2))
                           (set_utcnow (utcnow s + Z.of_N (elapsed w)) s))) s2
                   = pair (utcnow s2) <$> deliveries w' r (utcnow s2)).
    { unfold new_effects. rewrite Hlog, drop_app_length. by rewrite Hnow. }
    split; [done|]. split; [|done].
    rewrite Hnow. simpl. lia.
  - intros l Hl Hnd Hws Hlen.
    destruct (fetched_perm _ _ Hl) as [Hperm Hls].
    assert (Hsize : size (shard_rows (api s)) = length l).
    { by rewrite <- length_map_to_list, <- Hperm. }
    destruct (loop_drains _ ws s Hsize Hws Ht Hlen) as (Hdone & _ & Hfired).
    split; [|done].
    apply (StronglySorted_unique_strong due_le).
    + intros x1 x2 Hx1 Hx2 H12 H21.
      apply (NoDup_fmap_eq (λ r, expires_at r.2) l); [done| |done|].
      * by rewrite Hperm, <- Hfired.
      * unfold due_le in *. lia.
    + by apply fired_sorted.
    + done.
    + by rewrite Hfired, Hperm.
Qed.

(** X14: in worlds where the bot is open, the API answers and no guild is
    unavailable, a task that starts at its fetch and is resumed often
    enough wakes up exactly once for every reminder its shard has in the
    store, then finds nothing left and returns; the store then holds the
    rows of the other shards and nothing else. *)
Theorem loop_fires_each_reminder_once (ws : list World) (s : State) :
  Forall serves ws → _task s = Fetching →
  (2 * size (shard_rows (api s)) < length ws)%nat →
  _task (run ws s) = Done Returned
  ∧ fired <$> firings ws s ≡ₚ map_to_list (shard_rows (api s))
  ∧ api (run ws s) = filter (λ x, ¬ in_shard shard_of shard_id x) (api s).
Proof.
  forget_unused.
  intros Hws Ht Hlen.
  destruct (loop_drains _ ws s eq_refl Hws Ht Hlen) as (Hdone & Hempty & Hperm).
  split; [done|]. split; [done|].
  apply map_eq. intros k. apply option_eq. intros row.
  rewrite map_lookup_filter_Some. simpl.
  destruct (decide (in_shard shard_of shard_id (k, row))) as [Hin|Hout].
  - split; [|tauto]. intros Hk. exfalso.
    apply shard_rows_empty in Hempty. by apply (Hempty k row).
  - rewrite (loop_leaves_other_shards_aux ws s Ht k row Hout). tauto.
Qed.
(** *** From the command to the notification *)

(** X15: on a plugin that waits for nothing, a [remind] followed by two turns
    of the new task ends in one reply to the invoking message, in the
    channel of the command, made from the stored request and sent no
    earlier than the time asked for; the reminder is then gone from the
    store again. *)
Theorem remind_is_delivered (w0 w1 w2 : World) (ctx : Context) (time : Time)
    (msg : option string) (s : State) (g : Guild) (ch : Channel) :
  no_fault w0 → no_fault w1 → is_closed w1 = false → no_fault w2 →
  shard_of (guild ctx) = shard_id →
  (get_reminders shard_of shard_id (api s)).1 = Raise NotFound →
  _next s = None →
  get_guild w2 (guild ctx) = Some g → unavailable g = false →
  get_channel g (channel ctx) = Some ch →
  send_messages (permissions_for ch (me g)) = true →
  reply_result w2 = None →
  let expires := due_of time (utcnow s + Z.of_N (elapsed w0)) in
  let r := (fresh (dom (api s)), data_of ctx msg expires) in
  let s' := resume w2 (resume w1 (remind w0 ctx time msg s).2) in
  let t := utcnow s' in
  expires <= t
  ∧ last (log s') = Some (t, Reply (channel ctx) (ctx_message ctx)
                               (notification g ch r t).1 (notification g ch r t).2)
  ∧ api s' = api s
  ∧ _task s' = Fetching.
Proof.
  intros Hw0 Hw1 Hc1 Hw2 Hshard Hempty Hn Hg Hu Hch Hp Hr expires r s' t.
  subst t s'.
  destruct (remind_eq w0 ctx time msg s (Hw0 _)) as [text ->].
  fold expires. rewrite Hn. cbn [reschedules snd].
  set (idx := fresh (dom (api s))) in *. set (data := data_of ctx msg expires) in *.
  set (s1 := add_log _ _).
  assert (Hfresh : api s !! idx = None) by apply not_elem_of_dom, is_fresh.
  assert (Hse : shard_empty (api s)).
  { destruct (get_reminders_cases (api s)) as [[_ He]|(r' & rest & E & _)]; [done|].
    by rewrite E in Hempty. }
  destruct (resume_fetches w1 s1 eq_refl Hc1 (Hw1 _)) as [(_ & He & _)|(r' & Hr' & ->)].
  { exfalso. apply (He idx data); [apply lookup_insert_eq|done]. }
  assert (r' = r) as ->.
  { destruct Hr' as (Hin & Hsh & _). destruct r' as [k row]. simpl in *.
    apply lookup_insert_Some in Hin as [[<- <-]|[_ Hin]]; [done|].
    by destruct (Hse k row). }
  rewrite (resume_Sleeping _ _ r) by done. cbv zeta.
  rewrite (fire_deliver _ _ g ch) by done. cbv zeta.
  rewrite Hr, _delete_reminder_eq, Hw2. simpl.
  split; [lia|]. split; [by rewrite last_snoc|]. split; [|done].
  by rewrite delete_insert_eq, delete_id.
Qed.

(** X16: through any history of commands, turns of the task and unloads
    since the plugin was loaded, a task that is asleep on a reminder has
    the due time of that reminder, as fetched, in [_next]: what [remind]
    compares a new due time with is the time the task really waits for. *)
Theorem sleeping_task_waits_for_next (acts : list Action) (db : gmap Z Row)
    (now : datetime) (r : Reminder) :
  _task (play acts (init db now)) = Sleeping r →
  _next (play acts (init db now)) = Some (expires_at r.2).
Proof.
  intros Hasleep. exact (play_sleeps_on_next acts db now r Hasleep).
Qed.

End Reminders.

(** ** The statements at work on the small world *)

Lemma restart_on_create_and_cancel_witness :
  (let s1 := (remind demo_human_delta demo_strftime demo_quiet (demo_ctx 200)
                (Timedelta 2000) (Some "milk") demo_asleep).2 in
   let s2 := resume demo_shard_of 0 demo_PURRL demo_human_delta demo_quiet s1 in
   _task s1 = Fetching
   ∧ (utcnow s1, TaskCancel (_task demo_asleep)) ∈ log s1
   ∧ (utcnow s1, CreateTask) ∈ log s1
   ∧ ∃ r, _task s2 = Sleeping r ∧ _next s2 = Some (expires_at r.2)
          ∧ earliest demo_shard_of 0 r (api s1) ∧ expires_at r.2 <= 2000
          ∧ ((∀ k row, api demo_asleep !! k = Some row →
                       in_shard demo_shard_of 0 (k, row) → 2000 < expires_at row) →
             r = (fresh (dom (api demo_asleep)),
                  data_of (demo_ctx 200) (Some "milk") 2000)))
  ∧ (let s1 := (remind_cancel demo_Plural demo_quiet (demo_ctx 200) [2] demo_asleep).2 in
     let s2 := resume demo_shard_of 0 demo_PURRL demo_human_delta demo_quiet s1 in
     api s1 !! 2 = None
     ∧ _task s1 = Fetching
     ∧ (utcnow s1, TaskCancel (Sleeping demo_cake)) ∈ log s1
     ∧ (utcnow s1, CreateTask) ∈ log s1
     ∧ (((get_reminders demo_shard_of 0 (api s1)).1 = Raise NotFound
         ∧ _task s2 = Done Returned)
        ∨ (∃ r', _task s2 = Sleeping r' ∧ _next s2 = Some (expires_at r'.2)
                 ∧ earliest demo_shard_of 0 r' (api s1)))).
Proof.
  destruct (restart_on_create_and_cancel demo_shard_of 0 demo_PURRL
              demo_human_delta demo_strftime demo_Plural
              demo_quiet demo_quiet (demo_ctx 200) demo_asleep)
    as [Hcreate Hcancel]; [intros rq; reflexivity..|reflexivity|].
  split.
  - apply (Hcreate (Timedelta 2000) (Some "milk")); [reflexivity|].
    right. exists 3000. split; [reflexivity|]. vm_compute. reflexivity.
  - apply (Hcancel demo_cake [2]); try reflexivity. apply list_elem_of_singleton.
    reflexivity.
Defined.

Lemma C2_witness :
  let ws := [demo_quiet; demo_quiet; demo_quiet; demo_quiet; demo_quiet] in
  let tea := (1, demo_row 100 10 5000 "tea") in
  let s1 := resume demo_shard_of 0 demo_PURRL demo_human_delta demo_quiet demo_fresh in
  let s2 := resume demo_shard_of 0 demo_PURRL demo_human_delta demo_quiet s1 in
  StronglySorted Z.le
    (due <$> firings demo_shard_of 0 demo_PURRL demo_human_delta ws demo_fresh)
  ∧ Forall (λ f, due f <= woke_at f ∧ Forall (λ te, due f <= te.1) (effects f))
      (firings demo_shard_of 0 demo_PURRL demo_human_delta ws demo_fresh)
  ∧ (∀ w r,
       _task (resume demo_shard_of 0 demo_PURRL demo_human_delta w demo_fresh)
       = Sleeping r →
       earliest demo_shard_of 0 r (api demo_fresh)
       ∧ _next (resume demo_shard_of 0 demo_PURRL demo_human_delta w demo_fresh)
         = Some (expires_at r.2))
  ∧ (_task s1 = Sleeping demo_cake ∧ _next s1 = Some 3000
     ∧ api s1 = api demo_fresh ∧ log s1 = log demo_fresh
     ∧ firings demo_shard_of 0 demo_PURRL demo_human_delta [demo_quiet] s1
       = [{| fired := demo_cake; woke_at := utcnow s2; effects := new_effects s1 s2 |}]
     ∧ 3000 <= utcnow s2
     ∧ new_effects s1 s2
       = pair (utcnow s2)
           <$> deliveries demo_PURRL demo_human_delta demo_quiet demo_cake (utcnow s2))
  ∧ (fired <$> firings demo_shard_of 0 demo_PURRL demo_human_delta ws demo_fresh
     = [demo_cake; tea]
     ∧ _task (run demo_shard_of 0 demo_PURRL demo_human_delta ws demo_fresh)
       = Done Returned).
Proof.
  intros ws tea s1 s2.
  destruct (C2_firings_in_due_order demo_shard_of 0 demo_PURRL demo_human_delta
              ws demo_fresh eq_refl) as (Hsorted & Hlate & Hany & Hfirst & Hall).
  split; [exact Hsorted|]. split; [exact Hlate|]. split; [exact Hany|]. split.
  - destruct (Hfirst demo_quiet demo_cake [tea] eq_refl eq_refl)
      as (Htask & Hnext & Hapi & Hlog & Hwake); [vm_compute; reflexivity|].
    destruct (Hwake demo_quiet) as (Hf & Hdue & Hnew).
    repeat split; assumption.
  - apply Hall.
    + vm_compute. reflexivity.
    + repeat constructor; rewrite ?elem_of_cons, ?elem_of_nil; intros H;
        repeat destruct H as [H|H]; discriminate || done.
    + repeat constructor; intros g guild [= <-]; reflexivity.
    + simpl. lia.
Defined.

(** The two reminders of shard 0 fire earliest first, the one of the other
    shard not at all. *)
Example demo_firings :
  (λ f, ((fired f).1, woke_at f)) <$>
    firings demo_shard_of 0 demo_PURRL demo_human_delta
      [demo_quiet; demo_quiet; demo_quiet; demo_quiet; demo_quiet]
      (demo_state demo_db None Fetching)
  = [(2, 3000); (1, 5000)].
Proof. vm_compute. reflexivity. Qed.

Lemma C3_witness :
  let s' := resume demo_shard_of 0 demo_PURRL demo_human_delta
              (demo_world 0 None None None false) demo_asleep in
  api s' = delete 2 (api demo_asleep) ∧ api s' !! 2 = None
  ∧ log s' = log demo_asleep ∧ _task s' = Fetching.
Proof.
  apply (C3_permanent_failure_deletes demo_shard_of 0 demo_PURRL demo_human_delta
           (demo_world 0 None None None false) demo_asleep demo_cake);
    [reflexivity|reflexivity|exact I].
Defined.

Lemma C4_witness :
  let s' := resume demo_shard_of 0 demo_PURRL demo_human_delta
              (demo_world 0 (Some (demo_guild true true)) None None false)
              demo_asleep in
  api s' = <[2 := set_expires_at (3000 + minutes 5) demo_cake.2]> (api demo_asleep)
  ∧ api s' !! 2 = Some (set_expires_at (3000 + minutes 5) demo_cake.2)
  ∧ dom (api s') = dom (api demo_asleep)
  ∧ log s' = log demo_asleep ∧ _task s' = Fetching.
Proof.
  apply (C4_unavailable_guild_postpones demo_shard_of 0 demo_PURRL demo_human_delta
           (demo_world 0 (Some (demo_guild true true)) None None false)
           demo_asleep demo_cake (demo_guild true true)); reflexivity.
Defined.

Lemma C5_witness :
  let s' := resume demo_shard_of 0 demo_PURRL demo_human_delta
              (demo_world 0 (Some (demo_guild false true))
                 (Some (400, 50035)) (Some (500, 0)) false)
              demo_asleep in
  let t := utcnow s' in
  let content :=
    (notification demo_PURRL demo_human_delta (demo_guild false true)
       (demo_channel true) demo_cake t).1 in
  let mentions :=
    (notification demo_PURRL demo_human_delta (demo_guild false true)
       (demo_channel true) demo_cake t).2 in
  log s' = log demo_asleep ++ [(t, Reply 7 4194304 content mentions);
                               (t, Send 7 content mentions)]
  ∧ api s' = delete 2 (api demo_asleep) ∧ api s' !! 2 = None
  ∧ _task s' = Fetching.
Proof.
  apply (C5_one_fallback_then_delete demo_shard_of 0 demo_PURRL demo_human_delta
           (demo_world 0 (Some (demo_guild false true))
              (Some (400, 50035)) (Some (500, 0)) false)
           demo_asleep demo_cake (demo_guild false true) (demo_channel true)
           400 50035); reflexivity.
Defined.

Lemma C6_witness :
  ((delete_reminder 9 (api demo_asleep)).1 = Raise NotFound →
   _delete_reminder demo_quiet 9 demo_asleep = (Ok tt, set_next None demo_asleep))
  ∧ ∃ s1, _delete_reminder demo_quiet 9 demo_asleep = (Ok tt, s1)
          ∧ api s1 !! 9 = None
          ∧ _delete_reminder demo_quiet 9 s1 = (Ok tt, s1).
Proof.
  apply (C6_delete_absent_is_success demo_quiet 9 demo_asleep). reflexivity.
Defined.

(** A new task over a store with nothing for its shard: after its fetch
    the task has ended. *)
Lemma C7_counterexample :
  ¬ survives_empty_fetch demo_shard_of 0 demo_PURRL demo_human_delta
      demo_quiet demo_idle.
Proof.
  intros H.
  specialize (H eq_refl eq_refl (λ _, eq_refl) eq_refl).
  vm_compute in H. discriminate H.
Qed.

Lemma C7_witness :
  let s' := resume demo_shard_of 0 demo_PURRL demo_human_delta demo_quiet demo_idle in
  _task s' = Done Returned ∧ api s' = api demo_idle ∧ _next s' = _next demo_idle
  ∧ log s' = log demo_idle
  ∧ (∀ w', resume demo_shard_of 0 demo_PURRL demo_human_delta w' s' = s')
  ∧ (∀ w' ctx time message,
       no_fault w' →
       _next demo_idle = None
       ∨ (∃ n, _next demo_idle = Some n
               ∧ due_of time (utcnow s' + Z.of_N (elapsed w')) < n) →
       let s'' := (remind demo_human_delta demo_strftime w' ctx time message s').2 in
       _task s'' = Fetching ∧ (utcnow s'', CreateTask) ∈ log s'').
Proof.
  exact (C7_empty_fetch_returns demo_shard_of 0 demo_PURRL demo_human_delta
           demo_strftime demo_quiet demo_idle eq_refl eq_refl eq_refl eq_refl).
Defined.

(** A new task whose fetch fails: after it the task has ended. *)
Lemma C8_counterexample :
  ¬ survives_api_error demo_shard_of 0 demo_PURRL demo_human_delta
      demo_broken demo_fresh.
Proof.
  intros H. specialize (H eq_refl eq_refl eq_refl).
  vm_compute in H. discriminate H.
Qed.

Lemma C8_witness :
  (let s' := resume demo_shard_of 0 demo_PURRL demo_human_delta demo_broken demo_fresh in
   _task s' = Done (Raised ApiError) ∧ api s' = api demo_fresh
   ∧ log s' = log demo_fresh ∧ _next s' = _next demo_fresh
   ∧ ∀ w', resume demo_shard_of 0 demo_PURRL demo_human_delta w' s' = s')
  ∧ (let s' := resume demo_shard_of 0 demo_PURRL demo_human_delta demo_broken demo_asleep in
     _task s' = Done (Raised ApiError) ∧ api s' = api demo_asleep
     ∧ ∀ w', resume demo_shard_of 0 demo_PURRL demo_human_delta w' s' = s').
Proof.
  split.
  - exact (proj1 (C8_api_error_ends_task demo_shard_of 0 demo_PURRL demo_human_delta
                    demo_broken demo_fresh) eq_refl eq_refl eq_refl).
  - exact (proj2 (C8_api_error_ends_task demo_shard_of 0 demo_PURRL demo_human_delta
                    demo_broken demo_asleep) demo_cake eq_refl eq_refl eq_refl).
Defined.

Lemma C9_witness :
  ∃ s', remind_cancel demo_Plural demo_quiet (demo_ctx 200) [2; 1; 9] demo_asleep
        = (Ok tt, s')
        ∧ api s' = filter (kept (demo_ctx 200) [2; 1; 9]) (api demo_asleep)
        ∧ ∀ k row, api demo_asleep !! k = Some row →
            api s' !! k = if decide (k ∈ [2; 1; 9] ∧ user_id row = author (demo_ctx 200))
                          then None else Some row.
Proof.
  exact (C9_cancel_only_own demo_Plural demo_quiet (demo_ctx 200) [2; 1; 9]
           demo_asleep (λ _, eq_refl)).
Defined.

(** User 200 names reminders 2, 1 and 9: only 2 is theirs, 1 belongs to
    user 100 and 9 does not exist; 2 goes and the rest of the store stays. *)
Example demo_cancel :
  api (remind_cancel demo_Plural demo_quiet (demo_ctx 200) [2; 1; 9] demo_asleep).2
  = delete 2 demo_db.
Proof. vm_compute. reflexivity. Qed.

(** The checks run in the order of the source: with the guild down, a
    channel closed to the bot does not get the reminder deleted; it is
    postponed like any other. *)
Example demo_unavailable_first :
  api (resume demo_shard_of 0 demo_PURRL demo_human_delta
         (demo_world 0 (Some (demo_guild true false)) None None false)
         demo_asleep)
  = <[2 := demo_row 200 10 300003000 "cake"]> demo_db.
Proof. vm_compute. reflexivity. Qed.

Lemma C10_witness :
  let s' := resume demo_shard_of 0 demo_PURRL demo_human_delta demo_late demo_asleep in
  expires_at <$> api s' !! 2 = Some (3000 + 300 * 1000000)
  ∧ ∀ row, api s' !! 2 = Some row → expires_at row < utcnow s'.
Proof.
  destruct (C10_postponed_from_due_time demo_shard_of 0 demo_PURRL demo_human_delta
              demo_late demo_asleep demo_cake (demo_guild true true)
              eq_refl eq_refl eq_refl eq_refl eq_refl) as [Hdue Hpast].
  split; [exact Hdue|]. apply Hpast. reflexivity.
Defined.

(** A history on which the amended C7 takes no side.  The task sleeps on
    the only reminder of the shard; its owner cancels it, and the new task
    finds nothing and returns, [_next] still holding the old due time; a
    reminder created afterwards for a later time does not bring about a new
    task, so nobody waits for it. *)
Example stale_next_after_cancel :
  let s :=
    play demo_shard_of 0 demo_PURRL demo_human_delta demo_strftime demo_Plural
      [Resume demo_quiet;
       RemindCancel demo_quiet (demo_ctx 200) [2];
       Resume demo_quiet;
       Remind demo_quiet (demo_ctx 200) (Datetime 9000) (Some "milk");
       Resume demo_quiet]
      (init (<[2 := demo_cake.2]> ∅) 0) in
  _task s = Done Returned ∧ _next s = Some 3000
  ∧ (get_reminders demo_shard_of 0 (api s)).1
    = Ok [(0, data_of (demo_ctx 200) (Some "milk") 9000)].
Proof. vm_compute. auto. Qed.

(** C1, at an input on which the code departs from it.  The task sleeps
    on the only reminder of its shard; the owner cancels that reminder,
    and the new task fetches, is told not found and returns, which leaves
    [_next] at the old due time.  No wake-up is awaited now, but [remind]
    goes by [_next]: a reminder for a later time is stored and answered,
    the finished task is not replaced, and however often the event loop
    turns afterwards the reminder does not fire. *)
Theorem C1_stale_next_starts_no_task :
  let s :=
    play demo_shard_of 0 demo_PURRL demo_human_delta demo_strftime demo_Plural
      [Resume demo_quiet;
       RemindCancel demo_quiet (demo_ctx 200) [2];
       Resume demo_quiet]
      (init (<[2 := demo_cake.2]> ∅) 0) in
  let s' :=
    (remind demo_human_delta demo_strftime demo_quiet (demo_ctx 200)
       (Datetime 9000) (Some "milk") s).2 in
  (_task s = Done Returned ∧ _next s = Some 3000)
  ∧ (get_reminders demo_shard_of 0 (api s')).1
    = Ok [(fresh (dom (api s)), data_of (demo_ctx 200) (Some "milk") 9000)]
  ∧ _task s' = Done Returned
  ∧ (∃ text, snd <$> new_effects s s' = [CtxSend text])
  ∧ ∀ ws, firings demo_shard_of 0 demo_PURRL demo_human_delta ws s' = []
          ∧ run demo_shard_of 0 demo_PURRL demo_human_delta ws s' = s'.
Proof.
  intros s s'.
  split; [vm_compute; auto|]. split; [vm_compute; reflexivity|].
  split; [vm_compute; reflexivity|]. split; [eexists; vm_compute; reflexivity|].
  intros ws. apply firings_finished. vm_compute. reflexivity.
Qed.

(** ** The greedy parameter of [bot/command.py] *)

Section GreedyFacts.

Import Command.

Context {V : Type} (fw : Framework V).

(** The loop only adds to the list it was given. *)
Lemma greedy_loop_acc fuel : ∀ acc view,
  greedy_loop fw fuel acc view
  = match greedy_loop fw fuel [] view with
    | Some (Finished result error view') => Some (Finished (acc ++ result) error view')
    | other => other
    end.
Proof.
  induction fuel as [|fuel IH]; intros acc view; simpl; [done|].
  destruct (eof view); [by rewrite app_nil_r|].
  destruct (get_quoted_word fw (skip_ws fw view)) as [[e|argument] view'].
  - done.
  - destruct (do_conversion fw argument) as [e|value].
    + destruct (caught e); [by rewrite app_nil_r|done].
    + rewrite (IH (acc ++ [value])), (IH [value]).
      destruct (greedy_loop fw fuel [] view') as [[result error v|e v]|]; try done.
      by rewrite <- app_assoc.
Qed.

(** X17: the method never hands back an empty list: when it returns a list
    at least one word was converted. *)
Theorem greedy_result_is_never_empty (fuel : nat) (param : string)
    (required : bool) (view view' : StringView) (result : list V) :
  _transform_greedy_pos fw false fuel param required view
  = Some (inr (Values result), view') →
  (0 < length result)%nat.
Proof.
  unfold _transform_greedy_pos.
  destruct (greedy_loop fw fuel [] view) as [[[|v l] error v0|e v0]|]; try done.
  - destruct (negb required); [done|]. by destruct error.
  - intros [= <- _]. simpl. lia.
Qed.

(** X18: with nothing to convert a required parameter is an error and an
    optional one takes its default.  At the end of the input the error is
    [MissingRequiredArgument] and the view is not touched; when the first
    word does not convert the error is the converter's, and the index of
    the view is put back to where it was before that word. *)
Theorem greedy_without_a_value (fuel : nat) (param : string) (required : bool)
    (view : StringView) :
  (eof view = true →
   _transform_greedy_pos fw false (S fuel) param required view
   = Some (if required then inl (MissingRequiredArgument param) else inr ParamDefault,
           view))
  ∧ (∀ argument view' e,
       eof view = false →
       get_quoted_word fw (skip_ws fw view) = (inr argument, view') →
       do_conversion fw argument = inl e → caught e = true →
       _transform_greedy_pos fw false (S fuel) param required view
       = Some (if required then inl e else inr ParamDefault,
               set_index (index view) view')).
Proof.
  split.
  - intros He. unfold _transform_greedy_pos. simpl. rewrite He.
    by destruct required.
  - intros argument view' e He Hw Hc Hcaught.
    unfold _transform_greedy_pos. simpl. rewrite He, Hw, Hc, Hcaught.
    by destruct required.
Qed.

(** X19: a word that converts becomes the head of the result, and the rest
    is what the method makes of the input after it: the values that
    follow, none if the next word does not convert or the input ends, or
    the exception that [get_quoted_word] raises there, which the values
    converted so far do not survive. *)
Theorem greedy_takes_words_while_they_convert (fuel : nat) (param : string)
    (required : bool) (view view' : StringView) (argument : option string)
    (value : V) :
  eof view = false →
  get_quoted_word fw (skip_ws fw view) = (inr argument, view') →
  do_conversion fw argument = inr value →
  _transform_greedy_pos fw false (S fuel) param required view
  = match _transform_greedy_pos fw false fuel param false view' with
    | Some (inr (Values rest), v) => Some (inr (Values (value :: rest)), v)
    | Some (inr ParamDefault, v) => Some (inr (Values [value]), v)
    | other => other
    end.
Proof.
  intros He Hw Hc. unfold _transform_greedy_pos. simpl.
  rewrite He, Hw, Hc. simpl. rewrite greedy_loop_acc.
  destruct (greedy_loop fw fuel [] view') as [[[|v l] error v0|e v0]|]; done.
Qed.

Lemma greedy_loop_ends fuel : ∀ acc view,
  advances fw → (end_ view - index view < fuel)%nat →
  is_Some (greedy_loop fw fuel acc view).
Proof.
  induction fuel as [|fuel IH]; intros acc view Hadv Hfuel; [lia|]. simpl.
  destruct (eof view) eqn:He; [done|].
  pose proof (Hadv view He) as [Hend Hidx]. simpl in Hend, Hidx.
  destruct (get_quoted_word fw (skip_ws fw view)) as [[e|argument] view']; [done|].
  destruct (do_conversion fw argument) as [e|value].
  - by destruct (caught e).
  - apply IH; [done|]. unfold eof in He. apply bool_decide_eq_false in He.
    simpl in *. lia.
Qed.

(** X20: over a view that moves forward with every word the method comes to
    an end: as many turns of the loop as there are characters left, and
    one more, are enough for it to return or raise. *)
Theorem greedy_comes_to_an_end (fuel : nat) (param : string) (required : bool)
    (view : StringView) :
  advances fw → (end_ view - index view < fuel)%nat →
  is_Some (_transform_greedy_pos fw false fuel param required view).
Proof.
  intros Hadv Hfuel. unfold _transform_greedy_pos.
  destruct (greedy_loop_ends fuel [] view Hadv Hfuel) as [[result error v|e v] ->].
  - destruct result; [|done]. destruct (negb required); [done|]. by destruct error.
  - done.
Qed.

End GreedyFacts.

(** ** Pruning *)

Section PruneFacts.

Import Admin.

Lemma kick_loop_kicks env ctx check : ∀ pairs m reason,
  Kick m reason ∈ (kick_loop env ctx check pairs).2 →
  ∃ st, (m, st) ∈ pairs ∧ check st = inr true.
Proof.
  induction pairs as [|[member st] rest IH]; intros m reason; cbn [kick_loop].
  { intros H. by apply not_elem_of_nil in H. }
  destruct (check st) as [e|[|]] eqn:E.
  - simpl. intros H. by apply not_elem_of_nil in H.
  - destruct (kick_loop env ctx check rest) as [res effects] eqn:E'. cbn [snd app].
    rewrite !elem_of_cons, elem_of_app. intros [H|[H|[H|H]]]; try done.
    + injection H as <- _. exists st. split; [by left|done].
    + destruct (kick_fails env member); [by apply not_elem_of_nil in H|].
      by apply list_elem_of_singleton in H.
    + destruct (IH m reason H) as (st' & Hin & Hc).
      exists st'. split; [by right|done].
  - intros H. destruct (IH m reason H) as (st' & Hin & Hc).
    exists st'. split; [by right|done].
Qed.

Lemma kick_loop_count env ctx check : ∀ pairs n,
  count check pairs.*2 = inr n →
  (kick_loop env ctx check pairs).1 = inr tt
  ∧ Z.of_nat (length (filter (λ e, is_Kick e = true) (kick_loop env ctx check pairs).2)) = n.
Proof.
  induction pairs as [|[member st] rest IH]; intros n;
    cbn [kick_loop count fmap list_fmap snd].
  { by intros [= <-]. }
  destruct (check st) as [e|b] eqn:E; [done|].
  destruct (count check rest.*2) as [e|k] eqn:Ek; [done|]. intros [= <-].
  destruct (IH k eq_refl) as [Hres Hlen].
  destruct b.
  - destruct (kick_loop env ctx check rest) as [res effects]. cbn [fst snd app] in *.
    split; [done|].
    rewrite filter_cons_False by done. rewrite filter_cons_True by done.
    rewrite filter_app.
    replace (filter (λ e, is_Kick e = true)
               (if kick_fails env member then []
                else [Dispatch member ("Prune initiated by " +:+ author ctx)]))
      with (@nil Effect) by (by destruct (kick_fails env member)).
    simpl. lia.
  - split; [done|]. lia.
Qed.

Lemma count_raises check : ∀ statuses st e,
  st ∈ statuses → check st = inl e →
  (∀ st' e', check st' = inl e' → e' = e) →
  count check statuses = inl e.
Proof.
  induction statuses as [|st0 rest IH]; intros st e Hin Hc Hone.
  { by apply not_elem_of_nil in Hin. }
  simpl. destruct (check st0) as [e0|b] eqn:E; [by rewrite (Hone _ _ E)|].
  apply elem_of_cons in Hin as [->|Hin]; [congruence|].
  by rewrite (IH st e Hin Hc Hone).
Qed.

Lemma minus_days_inr now days start :
  minus_days now days = inr start →
  start = now - days * 86400 * 1000000
  ∧ datetime_min <= start <= datetime_max.
Proof.
  unfold minus_days. repeat case_bool_decide; try done.
  by intros [= <-].
Qed.

Lemma minus_days_inl now days e :
  minus_days now days = inl e → e = OverflowError.
Proof.
  unfold minus_days. repeat case_bool_decide; try done; by intros [= <-].
Qed.

(** X21: nobody is kicked unless the bot has been in the server for at
    least the number of days asked for and the first reaction that counts
    (by the invoking user, in the channel of the command, a cross or a
    check mark) is the check mark. *)
Theorem prune_kicks_only_when_confirmed (env : Env) (ctx : Context)
    (strategy : PruneStrategy) (given : list Role) (days : Z) (m : Member)
    (reason : string) :
  Kick m reason ∈ (_prune_command env ctx strategy given days).2 →
  days <= whole_days env (now env - me_joined_at ctx)
  ∧ ∃ p, List.find (reaction_check ctx) (reactions env) = Some p
         ∧ emoji_name p = "✅"
         ∧ payload_user_id p = author_id ctx
         ∧ payload_channel_id p = channel_id ctx.
Proof.
  unfold _prune_command. case_bool_decide as Hd.
  { simpl. intros H. apply list_elem_of_singleton in H. done. }
  split; [lia|]. revert H.
  destruct (minus_days _ _) as [e|start]; simpl.
  { intros H. by apply not_elem_of_nil in H. }
  destruct (count _ _) as [e|n]; simpl.
  { intros H. by apply not_elem_of_nil in H. }
  destruct (List.find _ _) as [p|] eqn:Hp.
  2:{ simpl. rewrite !elem_of_cons. intros [H|[H|[H|[H|H]]]]; try done.
      by apply not_elem_of_nil in H. }
  case_bool_decide as He; simpl.
  2:{ rewrite !elem_of_cons. intros [H|[H|[H|H]]]; try done.
      by apply not_elem_of_nil in H. }
  intros _. exists p. split; [done|]. split; [done|].
  apply find_some in Hp as [_ Hc]. unfold reaction_check in Hc.
  apply andb_prop in Hc as [Hc _]. apply andb_prop in Hc as [Hc1 Hc2].
  apply bool_decide_eq_true in Hc1, Hc2. done.
Qed.

(** X22: whoever is kicked is a member of the guild that is no bot, stands
    below the bot's top role, holds none of the four moderator
    permissions, has one of the given roles if roles were given, and has a
    status for which the check of the strategy says yes. *)
Theorem prune_spares_moderators (env : Env) (ctx : Context)
    (strategy : PruneStrategy) (given : list Role) (days : Z) (m : Member)
    (reason : string) :
  Kick m reason ∈ (_prune_command env ctx strategy given days).2 →
  m ∈ members ctx
  ∧ bot m = false
  ∧ role_lt env (top_role m) (me_top_role ctx) = true
  ∧ Z.testbit (guild_permissions m) 3 = false     (* administrator *)
  ∧ Z.testbit (guild_permissions m) 2 = false     (* ban_members *)
  ∧ Z.testbit (guild_permissions m) 1 = false     (* kick_members *)
  ∧ Z.testbit (guild_permissions m) 13 = false    (* manage_messages *)
  ∧ (given = [] ∨ ∃ r g, r ∈ roles m ∧ g ∈ given ∧ role_id r = role_id g)
  ∧ ∃ st, (m, st) ∈ zip (candidates env ctx given)
                        (bulk_last_status env (candidates env ctx given))
          ∧ strategy_check strategy (now env - days * 86400 * 1000000) st = inr true.
Proof.
  unfold _prune_command. case_bool_decide as Hd.
  { simpl. intros H. apply list_elem_of_singleton in H. done. }
  destruct (minus_days (now env) days) as [e|start] eqn:Hstart; simpl.
  { intros H. by apply not_elem_of_nil in H. }
  apply minus_days_inr in Hstart as [-> _].
  destruct (count _ _) as [e|n]; simpl.
  { intros H. by apply not_elem_of_nil in H. }
  destruct (List.find _ _) as [p|] eqn:Hp.
  2:{ simpl. rewrite !elem_of_cons. intros [H|[H|[H|[H|H]]]]; try done.
      by apply not_elem_of_nil in H. }
  case_bool_decide as He; simpl.
  2:{ rewrite !elem_of_cons. intros [H|[H|[H|H]]]; try done.
      by apply not_elem_of_nil in H. }
  destruct (kick_loop _ _ _ _) as [res effects] eqn:Ek. simpl.
  rewrite !elem_of_cons. intros [H|[H|[H|H]]]; try done.
  assert (Hin : Kick m reason ∈ (kick_loop env ctx
            (strategy_check strategy (now env - days * 86400 * 1000000))
            (zip (candidates env ctx given)
                 (bulk_last_status env (candidates env ctx given)))).2)
    by (by rewrite Ek).
  apply kick_loop_kicks in Hin as (st & Hst & Hcheck).
  pose proof Hst as Hpair. apply elem_of_zip_l in Hst. unfold candidates in Hst.
  apply list_elem_of_filter in Hst as [Hcan Hst].
  unfold can_be_pruned in Hcan.
  apply andb_prop in Hcan as [Hcan Hperm]. apply andb_prop in Hcan as [Hbot Hlt].
  apply negb_true_iff in Hbot. apply bool_decide_eq_true in Hperm.
  assert (Hbit : ∀ i, Z.testbit PERMISSIONS i = true →
            Z.testbit (guild_permissions m) i = false).
  { intros i Hi. pose proof (Z.land_spec (guild_permissions m) PERMISSIONS i) as Hl.
    rewrite Hperm, Z.bits_0, Hi, andb_true_r in Hl. done. }
  assert (Hmem : m ∈ members ctx
                 ∧ (given = [] ∨ ∃ r g, r ∈ roles m ∧ g ∈ given ∧ role_id r = role_id g)).
  { destruct given as [|g0 given']; [by split; [|left]|].
    apply list_elem_of_filter in Hst as [Hany Hst]. split; [done|]. right.
    unfold has_any_role in Hany. apply existsb_exists in Hany as (r & Hr & Hid).
    apply bool_decide_eq_true in Hid. apply list_elem_of_fmap in Hid as (g & Hg & Hgin).
    exists r, g. split; [by apply list_elem_of_In|done]. }
  destruct Hmem as [Hmem Hroles].
  split_and!; [done|done|done|by apply (Hbit 3)|by apply (Hbit 2)|by apply (Hbit 1)
              |by apply (Hbit 13)|done|by exists st].
Qed.

(** X23: when the start of the period is a [datetime], the tracking
    plugin answers with no more statuses than it was given members, the
    check raises on none of them and the user confirms, the number of
    members the question announces is the number of kicks the command
    then attempts.  When the start of the period is no [datetime], which a
    negative number of days can bring about since the guard on [days]
    lets it pass, the command ends with an [OverflowError] before it has
    sent or done anything. *)
Theorem prune_kicks_as_many_as_announced (env : Env) (ctx : Context)
    (strategy : PruneStrategy) (given : list Role) (days : Z) :
  days <= whole_days env (now env - me_joined_at ctx) →
  (∀ start p n,
     minus_days (now env) days = inr start →
     (length (bulk_last_status env (candidates env ctx given))
      ≤ length (candidates env ctx given))%nat →
     count (strategy_check strategy start)
           (bulk_last_status env (candidates env ctx given)) = inr n →
     List.find (reaction_check ctx) (reactions env) = Some p →
     emoji_name p = "✅" →
     let out := _prune_command env ctx strategy given days in
     out.1 = inr tt
     ∧ head out.2 = Some (Send ("Pruning members not seen in the past `" +:+ pretty days
                                +:+ "` days will remove `" +:+ pretty n
                                +:+ "` members, continue?"))
     ∧ Z.of_nat (length (filter (λ e, is_Kick e = true) out.2)) = n)
  ∧ (∀ e, minus_days (now env) days = inl e →
          _prune_command env ctx strategy given days = (inl OverflowError, [])).
Proof.
  intros Hd. split.
  - intros start p n Hstart Hlen Hn Hp He. unfold _prune_command.
    rewrite bool_decide_false by lia. rewrite Hstart, Hn, Hp.
    rewrite bool_decide_true by done. simpl.
    pose proof (kick_loop_count env ctx (strategy_check strategy start)
      (zip (candidates env ctx given)
           (bulk_last_status env (candidates env ctx given))) n) as Hk.
    rewrite snd_zip in Hk by done. destruct (Hk Hn) as [Hres Hcount].
    destruct (kick_loop _ _ _ _) as [res effects]. simpl in *.
    split; [done|]. split; [done|].
    rewrite !filter_cons_False by done. done.
  - intros e Hstart. unfold _prune_command.
    rewrite bool_decide_false by lia. rewrite Hstart.
    by rewrite (minus_days_inl _ _ _ Hstart).
Qed.

(** X24: under the status strategy a member whose online status is unknown
    and who was seen in the server within the period makes the command end
    with a [TypeError] before it has sent or done anything; when the start
    of the period is itself no [datetime], the [OverflowError] of its
    computation comes first, likewise before anything is sent or done. *)
Theorem prune_by_status_can_raise (env : Env) (ctx : Context) (given : list Role)
    (days : Z) (st : Status) (t : datetime) :
  days <= whole_days env (now env - me_joined_at ctx) →
  st ∈ bulk_last_status env (candidates env ctx given) →
  status st = None → seen st = Some t → now env - days * 86400 * 1000000 <= t →
  _prune_command env ctx PruneStrategy_status given days
  = (inl (match minus_days (now env) days with
          | inr _ => TypeError
          | inl _ => OverflowError
          end), []).
Proof.
  intros Hd Hin Hs Hseen Ht. unfold _prune_command.
  rewrite bool_decide_false by lia.
  destruct (minus_days (now env) days) as [e|start] eqn:Hstart.
  { by rewrite (minus_days_inl _ _ _ Hstart). }
  apply minus_days_inr in Hstart as [-> _].
  rewrite (count_raises (strategy_check PruneStrategy_status
                           (now env - days * 86400 * 1000000)) _ st TypeError Hin);
    [done| |].
  - simpl. unfold should_prune_status, should_prune_seen. rewrite Hs, Hseen.
    by rewrite bool_decide_false by lia.
  - intros st' e'. simpl. unfold should_prune_status.
    destruct (_ && _); [done|]. destruct (status st'); [done|]. by intros [= <-].
Qed.

(** X25: under the status strategy a member whose online status is known is
    judged by that time alone, whenever the member was last seen in the
    server; a member whose status is unknown is pruned if never seen in
    the server, or last seen there before the period. *)
Theorem status_check_ignores_seen (start : datetime) (st : Status) :
  (∀ t, status st = Some t →
        should_prune_status start st = inr (bool_decide (t < start)))
  ∧ (status st = None → should_prune_seen start st = true →
     should_prune_status start st = inr true).
Proof.
  unfold should_prune_status. split.
  - intros t ->. by rewrite andb_false_r.
  - by intros -> ->.
Qed.

End PruneFacts.

(** ** The further statements at work on the small world *)

(** A reminder for a time after the one the task sleeps on. *)
Lemma remind_later_leaves_task_witness :
  let expires := due_of (Timedelta 5000) (utcnow demo_asleep + Z.of_N (elapsed demo_quiet)) in
  let s' := (remind demo_human_delta demo_strftime demo_quiet (demo_ctx 200)
               (Timedelta 5000) (Some "milk") demo_asleep).2 in
  _task s' = _task demo_asleep ∧ _next s' = Some 3000
  ∧ api s' = <[fresh (dom (api demo_asleep))
               := data_of (demo_ctx 200) (Some "milk") expires]> (api demo_asleep)
  ∧ ∃ text, log s' = log demo_asleep ++ [(utcnow s', CtxSend text)].
Proof.
  refine (remind_later_leaves_task demo_human_delta demo_strftime demo_quiet
            (demo_ctx 200) (Timedelta 5000) (Some "milk") demo_asleep 3000
            (λ _, eq_refl) eq_refl _).
  vm_compute. discriminate.
Defined.

Lemma remind_stores_request_witness :
  let expires := due_of (Timedelta 5000) (utcnow demo_asleep + Z.of_N (elapsed demo_quiet)) in
  let idx := fresh (dom (api demo_asleep)) in
  let s' := (remind demo_human_delta demo_strftime demo_quiet (demo_ctx 200)
               (Timedelta 5000) (Some "") demo_asleep).2 in
  api demo_asleep !! idx = None
  ∧ get_reminder idx (api s') = (Ok (idx, data_of (demo_ctx 200) (Some "") expires), api s')
  ∧ (∀ k row, api demo_asleep !! k = Some row → api s' !! k = Some row)
  ∧ size (api s') = S (size (api demo_asleep))
  ∧ (truthy (Some "") = false
     → message (data_of (demo_ctx 200) (Some "") expires) = "something")
  ∧ (truthy (Some "") = true
     → Some (message (data_of (demo_ctx 200) (Some "") expires)) = Some "").
Proof.
  exact (remind_stores_request demo_human_delta demo_strftime demo_quiet
           (demo_ctx 200) (Timedelta 5000) (Some "") demo_asleep (λ _, eq_refl)).
Defined.

Lemma remind_failure_changes_nothing_witness :
  (remind demo_human_delta demo_strftime demo_broken (demo_ctx 200)
     (Timedelta 5000) (Some "milk") demo_asleep).1 = Raise ApiError
  ∧ let s' := (remind demo_human_delta demo_strftime demo_broken (demo_ctx 200)
                 (Timedelta 5000) (Some "milk") demo_asleep).2 in
    api s' = api demo_asleep ∧ _task s' = _task demo_asleep
    ∧ _next s' = _next demo_asleep ∧ log s' = log demo_asleep.
Proof.
  exact (remind_failure_changes_nothing demo_human_delta demo_strftime demo_broken
           (demo_ctx 200) (Timedelta 5000) (Some "milk") demo_asleep eq_refl).
Defined.

(** User 200 names reminder 1, which is not theirs, and 9, which does not
    exist. *)
Lemma remind_cancel_nothing_to_delete_witness :
  (remind_cancel demo_Plural demo_quiet (demo_ctx 200) [1; 9] demo_asleep).1 = Ok tt
  ∧ let s' := (remind_cancel demo_Plural demo_quiet (demo_ctx 200) [1; 9] demo_asleep).2 in
    api s' = api demo_asleep ∧ _task s' = _task demo_asleep
    ∧ _next s' = _next demo_asleep
    ∧ log s' = log demo_asleep ++ [(utcnow s', CtxSend
        "Unable to delete reminder, it may already be deleted or not belong to you.")].
Proof.
  refine (remind_cancel_nothing_to_delete demo_Plural demo_quiet (demo_ctx 200)
            [1; 9] demo_asleep (λ _, eq_refl) _).
  intros (k & row & Hk & Hrow & Huser).
  apply elem_of_cons in Hk as [->|Hk].
  - vm_compute in Hrow. injection Hrow as <-. vm_compute in Huser. discriminate.
  - apply list_elem_of_singleton in Hk as ->. vm_compute in Hrow. discriminate.
Defined.

(** User 200 names reminder 2 twice: one row goes, and one is reported. *)
Lemma remind_cancel_reports_rows_removed_witness :
  let s' := (remind_cancel demo_Plural demo_quiet (demo_ctx 200) [2; 2] demo_asleep).2 in
  let n := Z.of_nat (size (api demo_asleep)) - Z.of_nat (size (api s')) in
  0 < n
  ∧ last (log s')
    = Some (utcnow s', CtxSend ("Successfully deleted " +:+ demo_Plural n "reminder" +:+ ".")).
Proof.
  refine (remind_cancel_reports_rows_removed demo_Plural demo_quiet (demo_ctx 200)
            [2; 2] demo_asleep (λ _, eq_refl) _).
  exists 2, demo_cake.2. split; [left|split; reflexivity].
Defined.

Lemma remind_cancel_restarts_exactly_when_witness :
  let s' := (remind_cancel demo_Plural demo_quiet (demo_ctx 200) [2] demo_asleep).2 in
  ((utcnow s', CreateTask) ∈ new_effects demo_asleep s'
   ↔ cancellable (demo_ctx 200) [2] (api demo_asleep) ∧ _next demo_asleep ≠ None)
  ∧ (¬ (cancellable (demo_ctx 200) [2] (api demo_asleep) ∧ _next demo_asleep ≠ None)
     → _task s' = _task demo_asleep).
Proof.
  exact (remind_cancel_restarts_exactly_when demo_Plural demo_quiet (demo_ctx 200)
           [2] demo_asleep (λ _, eq_refl)).
Defined.

(** User 200 names reminder 2, on which the task sleeps, and then
    reminder 1, for which the API fails. *)
Lemma remind_cancel_fails_midway_witness :
  (remind_cancel demo_Plural demo_flaky (demo_ctx 200) ([2] ++ 1 :: []) demo_asleep).1
  = Raise ApiError
  ∧ let s' := (remind_cancel demo_Plural demo_flaky (demo_ctx 200)
                 ([2] ++ 1 :: []) demo_asleep).2 in
    api s' = filter (kept (demo_ctx 200) [2]) (api demo_asleep)
    ∧ _task s' = _task demo_asleep ∧ _next s' = _next demo_asleep
    ∧ log s' = log demo_asleep.
Proof.
  refine (remind_cancel_fails_midway demo_Plural demo_flaky (demo_ctx 200)
            [2] 1 [] demo_asleep _ eq_refl).
  intros k Hk. apply list_elem_of_singleton in Hk as ->. split; reflexivity.
Defined.

Lemma firing_uses_fetched_copy_witness :
  log (resume demo_shard_of 0 demo_PURRL demo_human_delta demo_quiet
         (set_api (delete 2 demo_db) demo_asleep))
  = log (resume demo_shard_of 0 demo_PURRL demo_human_delta demo_quiet demo_asleep).
Proof.
  exact (firing_uses_fetched_copy demo_shard_of 0 demo_PURRL demo_human_delta
           demo_quiet demo_asleep demo_cake (delete 2 demo_db) eq_refl).
Defined.

(** The reminder cancelled behind the task's back is delivered all the
    same. *)
Example demo_cancelled_yet_delivered :
  snd <$> log (resume demo_shard_of 0 demo_PURRL demo_human_delta demo_quiet demo_orphan)
  = [Reply 7 4194304
       (notification demo_PURRL demo_human_delta (demo_guild false true)
          (demo_channel true) demo_cake 3000).1
       (notification demo_PURRL demo_human_delta (demo_guild false true)
          (demo_channel true) demo_cake 3000).2].
Proof. vm_compute. reflexivity. Qed.

Lemma firing_sends_at_most_twice_witness :
  let w := demo_world 0 (Some (demo_guild false true)) (Some (400, 50035)) None false in
  let sent :=
    snd <$> new_effects demo_asleep
              (resume demo_shard_of 0 demo_PURRL demo_human_delta w demo_asleep) in
  sent = []
  ∨ ∃ c m,
      (sent = [Reply (channel_id demo_cake.2) (message_id demo_cake.2) c m]
       ∨ (reply_result w ≠ None
          ∧ sent = [Reply (channel_id demo_cake.2) (message_id demo_cake.2) c m;
                    Send (channel_id demo_cake.2) c m]))
      ∧ users m = true ∧ replied_user m = true
      ∧ (everyone m = true →
         ∃ g ch member,
           get_guild w (guild_id demo_cake.2) = Some g
           ∧ get_channel g (channel_id demo_cake.2) = Some ch
           ∧ get_member g (user_id demo_cake.2) = Some member
           ∧ mention_everyone (permissions_for ch member) = true).
Proof.
  exact (firing_sends_at_most_twice demo_shard_of 0 demo_PURRL demo_human_delta
           (demo_world 0 (Some (demo_guild false true)) (Some (400, 50035)) None false)
           demo_asleep demo_cake eq_refl).
Defined.

Lemma delivery_by_reply_alone_witness :
  let s' := resume demo_shard_of 0 demo_PURRL demo_human_delta demo_quiet demo_asleep in
  let t := utcnow s' in
  log s' = log demo_asleep
           ++ [(t, Reply (channel_id demo_cake.2) (message_id demo_cake.2)
                     (notification demo_PURRL demo_human_delta (demo_guild false true)
                        (demo_channel true) demo_cake t).1
                     (notification demo_PURRL demo_human_delta (demo_guild false true)
                        (demo_channel true) demo_cake t).2)]
  ∧ api s' = delete demo_cake.1 (api demo_asleep) ∧ _task s' = Fetching
  ∧ _next s' = None.
Proof.
  exact (delivery_by_reply_alone demo_shard_of 0 demo_PURRL demo_human_delta
           demo_quiet demo_asleep demo_cake (demo_guild false true) (demo_channel true)
           eq_refl eq_refl eq_refl eq_refl eq_refl eq_refl eq_refl).
Defined.

Lemma postponing_a_deleted_reminder_witness :
  let s' := resume demo_shard_of 0 demo_PURRL demo_human_delta
              (demo_world 0 (Some (demo_guild true true)) None None false)
              demo_orphan in
  api s' = api demo_orphan ∧ log s' = log demo_orphan ∧ _task s' = Fetching
  ∧ _next s' = None.
Proof.
  exact (postponing_a_deleted_reminder demo_shard_of 0 demo_PURRL demo_human_delta
           (demo_world 0 (Some (demo_guild true true)) None None false)
           demo_orphan demo_cake (demo_guild true true)
           eq_refl eq_refl eq_refl eq_refl eq_refl).
Defined.

(** Unloaded twice while the task sleeps on reminder 2: two requests, the
    task ends at the next turn, and the third unload finds it done. *)
Lemma unload_cancels_at_the_next_turn_witness :
  let acts := [Unload; Resume demo_quiet; Unload; Resume demo_quiet] in
  let s' := play demo_shard_of 0 demo_PURRL demo_human_delta demo_strftime demo_Plural
              (Unload :: acts) demo_asleep in
  api s' = api demo_asleep ∧ _next s' = _next demo_asleep
  ∧ snd <$> new_effects demo_asleep s'
    = [TaskCancel (Sleeping demo_cake); TaskCancel Cancelling]
  ∧ _task s' = Done Cancelled.
Proof.
  refine (unload_cancels_at_the_next_turn demo_shard_of 0 demo_PURRL demo_human_delta
            demo_strftime demo_Plural demo_asleep
            [Unload; Resume demo_quiet; Unload; Resume demo_quiet] eq_refl _).
  repeat constructor.
Defined.

(** Reminder 3 belongs to shard 1; the task of shard 0 fires twice and
    returns, and reminder 3 is where it was. *)
Lemma loop_leaves_other_shards_witness :
  api (run demo_shard_of 0 demo_PURRL demo_human_delta
         [demo_quiet; demo_late; demo_quiet; demo_broken] demo_fresh) !! 3
  = Some (demo_row 100 11 1000 "elsewhere")
  ↔ api demo_fresh !! 3 = Some (demo_row 100 11 1000 "elsewhere").
Proof.
  refine (loop_leaves_other_shards demo_shard_of 0 demo_PURRL demo_human_delta
            [demo_quiet; demo_late; demo_quiet; demo_broken] demo_fresh eq_refl
            3 (demo_row 100 11 1000 "elsewhere") _).
  vm_compute. discriminate.
Defined.

Lemma loop_fires_each_reminder_once_witness :
  let ws := [demo_quiet; demo_quiet; demo_quiet; demo_quiet; demo_quiet] in
  _task (run demo_shard_of 0 demo_PURRL demo_human_delta ws demo_fresh) = Done Returned
  ∧ fired <$> firings demo_shard_of 0 demo_PURRL demo_human_delta ws demo_fresh
    ≡ₚ map_to_list (shard_rows demo_shard_of 0 (api demo_fresh))
  ∧ api (run demo_shard_of 0 demo_PURRL demo_human_delta ws demo_fresh)
    = filter (λ x, ¬ in_shard demo_shard_of 0 x) (api demo_fresh).
Proof.
  refine (loop_fires_each_reminder_once demo_shard_of 0 demo_PURRL demo_human_delta
            [demo_quiet; demo_quiet; demo_quiet; demo_quiet; demo_quiet] demo_fresh
            _ eq_refl _).
  - repeat constructor; intros g guild [= <-]; reflexivity.
  - vm_compute. lia.
Defined.

(** User 200 asks in guild 10, where nothing was pending, for cake in two
    milliseconds. *)
Lemma remind_is_delivered_witness :
  let expires := due_of (Timedelta 2000) (utcnow demo_idle + Z.of_N (elapsed demo_quiet)) in
  let r := (fresh (dom (api demo_idle)), data_of (demo_ctx 200) (Some "cake") expires) in
  let s' := resume demo_shard_of 0 demo_PURRL demo_human_delta demo_quiet
              (resume demo_shard_of 0 demo_PURRL demo_human_delta demo_quiet
                 (remind demo_human_delta demo_strftime demo_quiet (demo_ctx 200)
                    (Timedelta 2000) (Some "cake") demo_idle).2) in
  let t := utcnow s' in
  expires <= t
  ∧ last (log s')
    = Some (t, Reply (channel (demo_ctx 200)) (ctx_message (demo_ctx 200))
                 (notification demo_PURRL demo_human_delta (demo_guild false true)
                    (demo_channel true) r t).1
                 (notification demo_PURRL demo_human_delta (demo_guild false true)
                    (demo_channel true) r t).2)
  ∧ api s' = api demo_idle
  ∧ _task s' = Fetching.
Proof.
  exact (remind_is_delivered demo_shard_of 0 demo_PURRL demo_human_delta demo_strftime
           demo_quiet demo_quiet demo_quiet (demo_ctx 200) (Timedelta 2000)
           (Some "cake") demo_idle (demo_guild false true) (demo_channel true)
           (λ _, eq_refl) (λ _, eq_refl) eq_refl (λ _, eq_refl)
           eq_refl eq_refl eq_refl eq_refl eq_refl eq_refl eq_refl eq_refl).
Defined.

(** A reminder for an earlier time has the new task sleep on it. *)
Lemma sleeping_task_waits_for_next_witness :
  _next (play demo_shard_of 0 demo_PURRL demo_human_delta demo_strftime demo_Plural
           [Resume demo_quiet;
            Remind demo_quiet (demo_ctx 200) (Datetime 2000) (Some "milk");
            Resume demo_quiet]
           (init demo_db 0))
  = Some (expires_at (data_of (demo_ctx 200) (Some "milk") 2000)).
Proof.
  exact (sleeping_task_waits_for_next demo_shard_of 0 demo_PURRL demo_human_delta
           demo_strftime demo_Plural
           [Resume demo_quiet;
            Remind demo_quiet (demo_ctx 200) (Datetime 2000) (Some "milk");
            Resume demo_quiet]
           demo_db 0 (fresh (dom demo_db), data_of (demo_ctx 200) (Some "milk") 2000)
           eq_refl).
Defined.

(** *** The greedy parameter on bare words *)

Lemma demo_scan_le stop : ∀ n i buf, (i ≤ demo_scan stop n i buf)%nat.
Proof.
  induction n as [|n IH]; intros i buf; simpl; [lia|].
  destruct (String.get i buf) as [c|]; [|lia].
  destruct (stop c); [lia|]. specialize (IH (S i) buf). lia.
Qed.

Lemma demo_fw_advances : Command.advances demo_fw.
Proof.
  intros view He. simpl. unfold demo_get_quoted_word.
  pose proof (demo_scan_le (λ c, negb (demo_is_space c))
                (Command.end_ view - Command.index view) (Command.index view)
                (Command.buffer view)) as Hws.
  unfold Command.eof in He. apply bool_decide_eq_false in He.
  destruct (Command.eof (demo_skip_ws view)) eqn:He'.
  - unfold Command.eof in He'. apply bool_decide_eq_true in He'.
    simpl in *. split; [done|lia].
  - simpl. split; [done|].
    pose proof (demo_scan_le demo_is_space
                  (Command.end_ view - S (Command.index (demo_skip_ws view)))
                  (S (Command.index (demo_skip_ws view))) (Command.buffer view)).
    simpl in *. lia.
Qed.

(** Two numbers and then a word that is none: the numbers are the result,
    and the view is back at the space before the word. *)
Example demo_greedy :
  Command._transform_greedy_pos demo_fw false 9 "reminders" true (demo_view "12 7 x 3")
  = Some (inr (Command.Values [12; 7]), Command.set_index 4 (demo_view "12 7 x 3")).
Proof. vm_compute. reflexivity. Qed.

Lemma greedy_result_is_never_empty_witness : (0 < length [12; 7])%nat.
Proof.
  exact (greedy_result_is_never_empty demo_fw 9 "reminders" true
           (demo_view "12 7 x 3") (Command.set_index 4 (demo_view "12 7 x 3"))
           [12; 7] eq_refl).
Defined.

Lemma greedy_without_a_value_witness :
  Command._transform_greedy_pos demo_fw false 1 "reminders" true (demo_view "")
  = Some (inl (Command.MissingRequiredArgument "reminders"), demo_view "")
  ∧ Command._transform_greedy_pos demo_fw false 1 "reminders" true (demo_view "x 3")
    = Some (inl (Command.CommandError "not a number"),
            Command.set_index 0 (Command.set_index 1 (demo_view "x 3"))).
Proof.
  split.
  - exact (proj1 (greedy_without_a_value demo_fw 0 "reminders" true (demo_view ""))
             eq_refl).
  - exact (proj2 (greedy_without_a_value demo_fw 0 "reminders" true (demo_view "x 3"))
             (Some "x") (Command.set_index 1 (demo_view "x 3"))
             (Command.CommandError "not a number") eq_refl eq_refl eq_refl eq_refl).
Defined.

Lemma greedy_takes_words_while_they_convert_witness :
  Command._transform_greedy_pos demo_fw false 9 "reminders" true (demo_view "12 7 x 3")
  = match Command._transform_greedy_pos demo_fw false 8 "reminders" false
            (Command.set_index 2 (demo_view "12 7 x 3")) with
    | Some (inr (Command.Values rest), v) => Some (inr (Command.Values (12 :: rest)), v)
    | Some (inr Command.ParamDefault, v) => Some (inr (Command.Values [12]), v)
    | other => other
    end.
Proof.
  exact (greedy_takes_words_while_they_convert demo_fw 8 "reminders" true
           (demo_view "12 7 x 3") (Command.set_index 2 (demo_view "12 7 x 3"))
           (Some "12") 12 eq_refl eq_refl eq_refl).
Defined.

Lemma greedy_comes_to_an_end_witness :
  is_Some (Command._transform_greedy_pos demo_fw false 9 "reminders" true
             (demo_view "12 7 x 3")).
Proof.
  refine (greedy_comes_to_an_end demo_fw 9 "reminders" true (demo_view "12 7 x 3")
            demo_fw_advances _).
  vm_compute. lia.
Defined.

(** *** Pruning the small guild *)

(** Thirty days, by online status, confirmed: member 1 is kicked, and
    nobody else. *)
Example demo_prune :
  Admin._prune_command (demo_env demo_statuses [demo_confirm]) demo_prune_ctx
    Admin.PruneStrategy_status [] 30
  = (inr tt,
     [Admin.Send "Pruning members not seen in the past `30` days will remove `1` members, continue?";
      Admin.AddReaction "✅"; Admin.AddReaction "❌";
      Admin.Ignore (demo_member 1 false (demo_role 20 1) 0);
      Admin.Kick (demo_member 1 false (demo_role 20 1) 0) "Prune initiated by admin#0001";
      Admin.Dispatch (demo_member 1 false (demo_role 20 1) 0) "Prune initiated by admin#0001"]).
Proof. vm_compute. reflexivity. Qed.

Lemma demo_prune_kicks :
  Admin.Kick (demo_member 1 false (demo_role 20 1) 0) "Prune initiated by admin#0001"
  ∈ (Admin._prune_command (demo_env demo_statuses [demo_confirm]) demo_prune_ctx
       Admin.PruneStrategy_status [] 30).2.
Proof. rewrite demo_prune. simpl. do 4 right. left. Qed.

Lemma prune_kicks_only_when_confirmed_witness :
  30 <= Admin.whole_days (demo_env demo_statuses [demo_confirm])
          (Admin.now (demo_env demo_statuses [demo_confirm])
           - Admin.me_joined_at demo_prune_ctx)
  ∧ ∃ p, List.find (Admin.reaction_check demo_prune_ctx)
           (Admin.reactions (demo_env demo_statuses [demo_confirm])) = Some p
         ∧ Admin.emoji_name p = "✅"
         ∧ Admin.payload_user_id p = Admin.author_id demo_prune_ctx
         ∧ Admin.payload_channel_id p = Admin.channel_id demo_prune_ctx.
Proof.
  exact (prune_kicks_only_when_confirmed (demo_env demo_statuses [demo_confirm])
           demo_prune_ctx Admin.PruneStrategy_status [] 30
           (demo_member 1 false (demo_role 20 1) 0) "Prune initiated by admin#0001"
           demo_prune_kicks).
Defined.

Lemma prune_spares_moderators_witness :
  let env := demo_env demo_statuses [demo_confirm] in
  let m := demo_member 1 false (demo_role 20 1) 0 in
  m ∈ Admin.members demo_prune_ctx
  ∧ Admin.bot m = false
  ∧ Admin.role_lt env (Admin.top_role m) (Admin.me_top_role demo_prune_ctx) = true
  ∧ Z.testbit (Admin.guild_permissions m) 3 = false
  ∧ Z.testbit (Admin.guild_permissions m) 2 = false
  ∧ Z.testbit (Admin.guild_permissions m) 1 = false
  ∧ Z.testbit (Admin.guild_permissions m) 13 = false
  ∧ (@nil Admin.Role = []
     ∨ ∃ r g, r ∈ Admin.roles m ∧ g ∈ @nil Admin.Role ∧ Admin.role_id r = Admin.role_id g)
  ∧ ∃ st, (m, st) ∈ zip (Admin.candidates env demo_prune_ctx [])
                        (Admin.bulk_last_status env (Admin.candidates env demo_prune_ctx []))
          ∧ Admin.strategy_check Admin.PruneStrategy_status
              (Admin.now env - 30 * 86400 * 1000000) st = inr true.
Proof.
  exact (prune_spares_moderators (demo_env demo_statuses [demo_confirm])
           demo_prune_ctx Admin.PruneStrategy_status [] 30
           (demo_member 1 false (demo_role 20 1) 0) "Prune initiated by admin#0001"
           demo_prune_kicks).
Defined.

Lemma prune_kicks_as_many_as_announced_witness :
  (let out := Admin._prune_command (demo_env demo_statuses [demo_confirm]) demo_prune_ctx
                Admin.PruneStrategy_status [] 30 in
   out.1 = inr tt
   ∧ head out.2 = Some (Admin.Send ("Pruning members not seen in the past `" +:+ pretty 30
                                    +:+ "` days will remove `" +:+ pretty 1
                                    +:+ "` members, continue?"))
   ∧ Z.of_nat (length (filter (λ e, Admin.is_Kick e = true) out.2)) = 1)
  ∧ Admin._prune_command (demo_env demo_statuses [demo_confirm]) demo_prune_ctx
      Admin.PruneStrategy_status [] (-3000000)
    = (inl Admin.OverflowError, []).
Proof.
  split.
  - refine (proj1 (prune_kicks_as_many_as_announced
                     (demo_env demo_statuses [demo_confirm]) demo_prune_ctx
                     Admin.PruneStrategy_status [] 30 _)
              (70 * demo_day) demo_confirm 1 eq_refl _ eq_refl eq_refl eq_refl).
    + vm_compute. discriminate.
    + vm_compute. lia.
  - refine (proj2 (prune_kicks_as_many_as_announced
                     (demo_env demo_statuses [demo_confirm]) demo_prune_ctx
                     Admin.PruneStrategy_status [] (-3000000) _)
              Admin.OverflowError eq_refl).
    vm_compute. discriminate.
Defined.

(** Member 1 was seen five days ago, and never online. *)
Lemma prune_by_status_can_raise_witness :
  Admin._prune_command (demo_env demo_statuses_unknown [demo_confirm]) demo_prune_ctx
    Admin.PruneStrategy_status [] 30
  = (inl Admin.TypeError, []).
Proof.
  refine (prune_by_status_can_raise (demo_env demo_statuses_unknown [demo_confirm])
            demo_prune_ctx [] 30
            {| Admin.seen := Some (95 * demo_day); Admin.status := None |}
            (95 * demo_day) _ _ eq_refl eq_refl _).
  - vm_compute. discriminate.
  - left.
  - vm_compute. discriminate.
Defined.

Lemma status_check_ignores_seen_witness :
  Admin.should_prune_status (70 * demo_day)
    {| Admin.seen := Some (95 * demo_day); Admin.status := Some (20 * demo_day) |}
  = inr (bool_decide (20 * demo_day < 70 * demo_day))
  ∧ Admin.should_prune_status (70 * demo_day)
      {| Admin.seen := None; Admin.status := None |}
    = inr true.
Proof.
  split.
  - exact (proj1 (status_check_ignores_seen (70 * demo_day)
                    {| Admin.seen := Some (95 * demo_day);
                       Admin.status := Some (20 * demo_day) |})
             (20 * demo_day) eq_refl).
  - exact (proj2 (status_check_ignores_seen (70 * demo_day)
                    {| Admin.seen := None; Admin.status := None |})
             eq_refl eq_refl).
Defined.
